(** * Qualys IaC scan task: a shallow embedding of the Python sources

    The development follows the four source files of
    [qualys-iac-scan/python]:

    - [Py]            the fragment of Python's data and control the code uses
                      (JSON values, truthiness, [dict.get], iteration,
                      exceptions, [print]);
    - [ResultParser]  [resultParser.py];
    - [FileUtils]     [file_utils.py];
    - [QualysClient]  [qualys_client.py] (the polling loop);
    - [Main]          [main.py] (the orchestrated run and its cleanup).

    Definitions come first, module by module; the theorems about them
    follow in the second half of the file. *)

From Stdlib Require Import ZArith List String Ascii Bool Lia Arith.
From Stdlib Require Import Floats.SpecFloat.
From Stdlib Require Import Numbers.DecimalString.
Import ListNotations.

Local Open Scope list_scope.
Local Open Scope string_scope.

Set Warnings "-register-all".

(* ===================================================================== *)
(** * Python: values, exceptions and effects                              *)
(* ===================================================================== *)

Module Py.

(** The exceptions the four files can meet.  [KeyboardInterrupt] stands
    for the [BaseException]s that are not [Exception]s; [SystemExit] is
    what [sys.exit] raises. *)
Inductive exception : Type :=
| AttributeError
| TypeError
| ValueError (msg : string)
| UnicodeDecodeError
| OSError (msg : string)
| FileNotFoundError (msg : string)
| TimeoutError (msg : string)
| SSLError (msg : string)
| RequestException (msg : string)
| KeyboardInterrupt
| SystemExit (code : Z).

(** How a call ends. *)
Inductive result (A : Type) : Type :=
| Return (a : A)
| Raise (e : exception).
Arguments Return {A} a.
Arguments Raise {A} e.

(** What [json.loads] builds: [None], booleans, integers, floats, strings,
    lists and dictionaries with string keys.  A dictionary is kept as the
    list of its items in insertion order. *)
Inductive value : Type :=
| PNone
| PBool (b : bool)
| PInt (n : Z)
| PFloat (f : spec_float)
| PStr (s : string)
| PList (l : list value)
| PDict (d : list (string * value)).

(** [bool(v)]: the truth value Python gives [v] in [if v], [not v], [v or w]. *)
Definition truthy (v : value) : bool :=
  match v with
  | PNone => false
  | PBool b => b
  | PInt n => negb (n =? 0)%Z
  | PFloat (S754_zero _) => false
  | PFloat _ => true
  | PStr s => negb (s =? "")
  | PList l => match l with [] => false | _ => true end
  | PDict d => match d with [] => false | _ => true end
  end.

(** [a or b]. *)
Definition py_or (a b : value) : value := if truthy a then a else b.

(** [isinstance(v, dict)]. *)
Definition is_dict (v : value) : bool :=
  match v with PDict _ => true | _ => false end.

(** The item stored under [k], if any. *)
Fixpoint lookup (d : list (string * value)) (k : string) : option value :=
  match d with
  | [] => None
  | (k', v) :: d' => if k' =? k then Some v else lookup d' k
  end.

(** [v.get(k, default)]; only dictionaries have a [get]. *)
Definition get (v : value) (k : string) (default : value) : result value :=
  match v with
  | PDict d => Return (match lookup d k with Some x => x | None => default end)
  | _ => Raise AttributeError
  end.

(** The characters of a string, each as a one-character string. *)
Fixpoint chars (s : string) : list value :=
  match s with
  | EmptyString => []
  | String c s' => PStr (String c EmptyString) :: chars s'
  end.

(** [iter(v)], run to the end: lists give their elements, strings their
    characters, dictionaries their keys; nothing else is iterable. *)
Definition iterate (v : value) : result (list value) :=
  match v with
  | PList l => Return l
  | PStr s => Return (chars s)
  | PDict d => Return (map (fun kv => PStr (fst kv)) d)
  | _ => Raise TypeError
  end.

(** [v == s] for a string literal [s]. *)
Definition eq_str (v : value) (s : string) : bool :=
  match v with PStr s' => s' =? s | _ => false end.

(** [sep.join(parts)]. *)
Fixpoint join (sep : string) (parts : list string) : string :=
  match parts with
  | [] => ""
  | [p] => p
  | p :: rest => p ++ sep ++ join sep rest
  end.

(** [str(n)] for an integer. *)
Definition str_int (n : Z) : string := NilZero.string_of_int (Z.to_int n).

Section Rendering.

(** [repr] of a float and of a string are the interpreter's own; the code
    never looks inside them. *)
Variable float_repr : spec_float -> string.
Variable str_repr : string -> string.

(** [repr(v)]. *)
Fixpoint repr (v : value) : string :=
  match v with
  | PNone => "None"
  | PBool true => "True"
  | PBool false => "False"
  | PInt n => str_int n
  | PFloat f => float_repr f
  | PStr s => str_repr s
  | PList l => "[" ++ join ", " (map repr l) ++ "]"
  | PDict d =>
      "{" ++ join ", " (map (fun kv => let '(k, x) := kv in
                                       str_repr k ++ ": " ++ repr x) d) ++ "}"
  end.

(** [str(v)], which is what an f-string field [{v}] renders. *)
Definition str (v : value) : string :=
  match v with
  | PStr s => s
  | _ => repr v
  end.

End Rendering.

(** ** Effects: a log of what was emitted, and how the call ended

    [W L A] is a computation that appends to a log of [L]s and then either
    returns an [A] or raises.  With [L] the failure records it is a
    generator (the log is what was yielded); with [L] the output lines it is
    a function that prints. *)
Definition W (L A : Type) : Type := (list L * result A)%type.

Definition ret {L A} (a : A) : W L A := ([], Return a).
Definition raise {L A} (e : exception) : W L A := ([], Raise e).
Definition emit {L} (x : L) : W L unit := ([x], Return tt).
Definition lift {L A} (r : result A) : W L A := ([], r).

Definition bind {L A B} (m : W L A) (k : A -> W L B) : W L B :=
  match m with
  | (log, Return a) => let '(log', r) := k a in ((log ++ log')%list, r)
  | (log, Raise e) => (log, Raise e)
  end.

(** [for x in xs: body(x)]. *)
Fixpoint for_each {L A} (xs : list A) (body : A -> W L unit) : W L unit :=
  match xs with
  | [] => ret tt
  | x :: xs' => bind (body x) (fun _ => for_each xs' body)
  end.

(** [[f(x) for x in xs]], stopping at the first element that raises. *)
Fixpoint map_result {A B} (f : A -> result B) (xs : list A) : result (list B) :=
  match xs with
  | [] => Return []
  | x :: xs' =>
      match f x with
      | Raise e => Raise e
      | Return y =>
          match map_result f xs' with
          | Raise e => Raise e
          | Return ys => Return (y :: ys)
          end
      end
  end.

End Py.

Declare Scope py_scope.
Delimit Scope py_scope with py.
Notation "x <- m ;; k" := (Py.bind m (fun x => k))
  (at level 61, m at next level, right associativity) : py_scope.
Notation "m ;;; k" := (Py.bind m (fun _ => k))
  (at level 61, right associativity) : py_scope.

(* ===================================================================== *)
(** * resultParser.py                                                     *)
(* ===================================================================== *)

Module ResultParser.
Import Py.
Local Open Scope py_scope.

Definition ERROR_PREFIX : string := "::error::".

Definition JSON_PREAMBLE : string :=
  "The scan result is successfully retrieved. JSON output is as follows:".

(** The dictionary literal, in the order it is written (the order in which
    Python iterates it). *)
Definition FIELD_MAPPING : list (string * string) :=
  [ ("filePath", "File Name");
    ("checkId", "Qualys CID");
    ("checkName", "Control Name");
    ("criticality", "Criticality");
    ("remediation", "Remediation") ].

(** [FIELD_MAPPING.get(key, default)]. *)
Fixpoint mapping_get (m : list (string * string)) (key default : string) : string :=
  match m with
  | [] => default
  | (k, label) :: m' => if k =? key then label else mapping_get m' key default
  end.

(** The two standard streams [print] writes to. *)
Inductive stream : Type := Stdout | Stderr.

Definition line : Type := (stream * string)%type.

(** [print(text)] and [print(text, file=sys.stderr)]. *)
Definition print (text : string) : W line unit := emit (Stdout, text).
Definition eprint (text : string) : W line unit := emit (Stderr, text).

(** What [open(path, "r", encoding="utf-8")] followed by [read()] can do. *)
Inductive read_outcome : Type :=
| Content (text : string)
| NotFound
| IOFailure (msg : string)
| DecodeFailure.

(** The records [extract_failures] yields: the dictionaries
    [{"type": "parsing_error", "data": ...}] and
    [{"type": "failed_check", "data": ...}], one constructor per type tag. *)
Inductive failure : Type :=
| ParsingError (data : value)
| FailedCheck (data : value).

(** [s[i:]]. *)
Definition slice_from (i : nat) (s : string) : string :=
  substring i (String.length s - i) s.

Section Program.

(** The world outside the script: the files that can be opened,
    [json.loads] ([None] when it raises [JSONDecodeError]), and the
    interpreter's [repr] of floats and strings. *)
Variable read_file : string -> read_outcome.
Variable json_loads : string -> option value.
Variable float_repr : spec_float -> string.
Variable str_repr : string -> string.

Let str := Py.str float_repr str_repr.

(** [load_scan_data(file_path)]; Python's [None] is [PNone]. *)
Definition load_scan_data (file_path : string) : W line value :=
  match read_file file_path with
  | NotFound =>
      eprint ("Error: The file at path '" ++ file_path ++ "' was not found.") ;;;
      ret PNone
  | IOFailure e =>
      eprint ("Error: Could not read the file at path '" ++ file_path ++ "': " ++ e) ;;;
      ret PNone
  | DecodeFailure => raise UnicodeDecodeError
  | Content content =>
      let json_data_str :=
        match index 0 JSON_PREAMBLE content with
        | Some json_start_pos =>
            slice_from (json_start_pos + String.length JSON_PREAMBLE) content
        | None => content
        end in
      match json_loads json_data_str with
      | Some data => ret data
      | None =>
          eprint "Error: Failed to decode JSON. The file content may be malformed." ;;;
          ret PNone
      end
  end.

(** The body of the loop of [extract_failures] for one element of
    [result]. *)
Definition extract_entry (result : value) : W failure unit :=
  if negb (is_dict result) then ret tt
  else
    inner <- lift (get result "results" (PDict [])) ;;
    parsing_errors <- lift (get inner "parsingErrors" PNone) ;;
    (if truthy parsing_errors
     then emit (ParsingError parsing_errors)
     else ret tt) ;;;
    inner' <- lift (get result "results" (PDict [])) ;;
    failed_checks <- lift (get inner' "failedChecks" PNone) ;;
    if truthy failed_checks
    then
      checks <- lift (iterate failed_checks) ;;
      for_each checks (fun check => emit (FailedCheck check))
    else ret tt.

(** [extract_failures(scan_results)]: a generator; the log is the sequence
    of records it yields, the result tells whether it ran to its end. *)
Definition extract_failures (scan_results : value) : W failure unit :=
  entries <- lift (get scan_results "result" (PList [])) ;;
  results <- lift (iterate entries) ;;
  for_each results extract_entry.

(** One [label=value] item of the details string. *)
Definition render_field (check_details : value) (key : string) : result string :=
  match get check_details key PNone with
  | Raise e => Raise e
  | Return v =>
      Return (mapping_get FIELD_MAPPING key key ++ "=" ++ str (py_or v (PStr "None")))
  end.

(** The body of the reporting loop for one record. *)
Definition report_one (f : failure) : W line unit :=
  match f with
  | ParsingError data =>
      print (ERROR_PREFIX ++ "Parsing error file paths=" ++ str data)
  | FailedCheck check_details =>
      fields <- lift (map_result (render_field check_details)
                                 (map fst FIELD_MAPPING)) ;;
      print (ERROR_PREFIX ++ join ", " fields)
  end.

(** The loop of [report_failures] over the records already yielded,
    [has_failures] being the flag on entry. *)
Fixpoint report_loop (records : list failure) (has_failures : bool) : W line bool :=
  match records with
  | [] => ret has_failures
  | f :: rest => report_one f ;;; report_loop rest true
  end.

(** [report_failures(failures)]: consumes the generator; an exception
    raised inside the generator surfaces after the records yielded before
    it have been reported. *)
Definition report_failures (failures : W failure unit) : W line bool :=
  has_failures <- report_loop (fst failures) false ;;
  match snd failures with
  | Raise e => raise e
  | Return _ => ret has_failures
  end.

(** [main()], after [argparse] has produced [args.file_path]. *)
Definition main (file_path : string) : W line Z :=
  scan_data <- load_scan_data file_path ;;
  if negb (truthy scan_data) then ret 1%Z
  else
    status <- lift (get scan_data "status" PNone) ;;
    if negb (eq_str status "FINISHED")
    then
      eprint ("Error: Scan status was '" ++ str status ++ "', not 'FINISHED'.") ;;;
      ret 1%Z
    else
      let failure_generator := extract_failures scan_data in
      any_failures_found <- report_failures failure_generator ;;
      if any_failures_found : bool
      then
        eprint (String "010" "Failures were detected.") ;;;
        ret 1%Z
      else
        print "Success: No failed checks or parsing errors found." ;;;
        ret 0%Z.

(** The status of the process that runs [sys.exit(main())]: the integer
    [main] returns, or 1 when an exception reaches the top level. *)
Definition exit_status (run : W line Z) : Z :=
  match snd run with
  | Return code => code
  | Raise _ => 1%Z
  end.

End Program.

End ResultParser.

(* ===================================================================== *)
(** * file_utils.py                                                       *)
(* ===================================================================== *)

Module FileUtils.
Import Py.
Local Open Scope py_scope.

Definition SUPPORTED_EXTENSIONS : list string :=
  [".tf"; ".json"; ".yaml"; ".yml"; ".template"].

(** The alternatives of [IAC_REGEX], in the order of the pattern. *)
Definition IAC_TOKENS : list string :=
  ["main"; "infra"; "template"; "cloudformation"; "terraform"; "cdk"; "stack"].

(** ** Strings: [str.lower] and a case-insensitive search

    File names are strings of 8-bit characters.  The patterns and the
    extensions they are compared with are made of ASCII letters and dots, so
    the only case that matters to a comparison is that of the letters
    [A]-[Z]. *)
Definition lower_char (c : ascii) : ascii :=
  let n := nat_of_ascii c in
  if ((65 <=? n) && (n <=? 90))%nat then ascii_of_nat (n + 32) else c.

(** [s.lower()]. *)
Fixpoint lower (s : string) : string :=
  match s with
  | EmptyString => EmptyString
  | String c s' => String (lower_char c) (lower s')
  end.

(** A literal matched at the start of [s] under [re.IGNORECASE]. *)
Fixpoint match_here (literal s : string) : bool :=
  match literal, s with
  | EmptyString, _ => true
  | String _ _, EmptyString => false
  | String p literal', String c s' =>
      (lower_char p =? lower_char c)%char && match_here literal' s'
  end.

(** [re.compile("(a1|a2|...)", re.IGNORECASE).search(s)] as a truth value:
    the leftmost position at which one of the alternatives matches. *)
Fixpoint search (alternatives : list string) (s : string) : bool :=
  existsb (fun alt => match_here alt s) alternatives
  || match s with
     | EmptyString => false
     | String _ s' => search alternatives s'
     end.

(** [s.rfind(".")]. *)
Fixpoint rfind_dot (s : string) : option nat :=
  match s with
  | EmptyString => None
  | String c s' =>
      match rfind_dot s' with
      | Some i => Some (S i)
      | None => if (c =? ".")%char then Some 0 else None
      end
  end.

(** ** Paths and the directory tree

    A path is the list of its components ([PurePath.parts]). *)
Definition path : Type := list string.

(** [path.is_absolute()] on a POSIX system: the first component is the
    root. *)
Definition is_absolute (p : path) : bool :=
  match p with
  | first :: _ => first =? "/"
  | [] => false
  end.

(** [path.name]: the last component, and the empty string for the empty
    path and for the root alone. *)
Definition name (p : path) : string :=
  if (List.length p <=? (if is_absolute p then 1 else 0))%nat
  then ""
  else last p "".

(** [path.suffix]: the part of the name from its last dot, unless that dot
    is the first or the last character of the name. *)
Definition suffix (p : path) : string :=
  let n := name p in
  match rfind_dot n with
  | Some i =>
      if ((0 <? i) && (i <? String.length n - 1))%nat
      then substring i (String.length n - i) n
      else ""
  | None => ""
  end.

(** [str(path)] on a POSIX system. *)
Definition path_str (p : path) : string :=
  match p with
  | [] => "."
  | "/" :: rest => "/" ++ join "/" rest
  | _ => join "/" p
  end.

(** What a directory entry is: a regular file with its content, a directory
    with its entries in the order the system lists them, or something that is
    neither (a socket, a dangling link). *)
Inductive node : Type :=
| File (content : string)
| Dir (entries : list (string * node))
| Other.

(** [path.is_file()] and [path.is_dir()] for the node found at the path. *)
Definition is_file (n : node) : bool :=
  match n with File _ => true | _ => false end.

Definition is_dir (at_path : option node) : bool :=
  match at_path with Some (Dir _) => true | _ => false end.

(** The directories of the subtree, the root first, each with its entries
    (the walk of pathlib's recursive wildcard). *)
Fixpoint directories (here : path) (n : node) : list (path * list (string * node)) :=
  match n with
  | Dir entries =>
      (here, entries)
      :: flat_map (fun entry => let '(nm, child) := entry in
                                directories (here ++ [nm])%list child) entries
  | _ => []
  end.

(** [root.rglob("*")]: every entry of every directory of the subtree. *)
Definition rglob (root : path) (n : node) : list (path * node) :=
  flat_map (fun d => let '(here, entries) := d in
                     map (fun entry => ((here ++ [fst entry])%list, snd entry)) entries)
           (directories root n).

(** [is_likely_iac_file(file)]. *)
Definition is_likely_iac_file (file : path) : bool :=
  search IAC_TOKENS (name file).

(** [file.suffix.lower() in SUPPORTED_EXTENSIONS]. *)
Definition has_supported_extension (file : path) : bool :=
  existsb (fun ext => lower (suffix file) =? ext) SUPPORTED_EXTENSIONS.

(** [find_iac_templates(root_dir)], [at_root] being what the file system
    holds at [root_dir] ([None]: nothing). *)
Definition find_iac_templates (root_dir : path) (at_root : option node)
  : result (list path) :=
  if negb (is_dir at_root)
  then Raise (FileNotFoundError
                ("The specified directory does not exist: " ++ path_str root_dir))
  else
    let found_files :=
      map fst
          (filter (fun candidate =>
                     let '(file, n) := candidate in
                     is_file n
                     && has_supported_extension file
                     && is_likely_iac_file file)
                  (match at_root with
                   | Some root => rglob root_dir root
                   | None => []
                   end)) in
    Return found_files.

(** ** The archive *)

(** An archive member: its name inside the archive and its bytes. *)
Record zip_entry : Type := { arcname : path; data : string }.

Section Archive.

(** The bytes of the regular file at a path, [None] when it cannot be
    read, and the text pathlib puts in its [ValueError]. *)
Variable read_bytes : path -> option string.
Variable not_in_subpath : path -> path -> string.

(** The components of [file] after those of [base], when [base] is its
    leading part. *)
Fixpoint strip_base (file base : path) : option path :=
  match base, file with
  | [], _ => Some file
  | b :: base', f :: file' => if f =? b then strip_base file' base' else None
  | _ :: _, [] => None
  end.

(** [file.relative_to(base)]: [base] must be the leading part of [file];
    the empty path is taken as the leading part of relative paths only. *)
Definition relative_to (file base : path) : result path :=
  match base, strip_base file base with
  | [], _ =>
      if is_absolute file
      then Raise (ValueError (not_in_subpath file base))
      else Return file
  | _ :: _, Some rel => Return rel
  | _ :: _, None => Raise (ValueError (not_in_subpath file base))
  end.

(** [zf.write(file_path, arcname)]: one more member in the archive. *)
Definition zf_write (file_path arcname : path) : W zip_entry unit :=
  match read_bytes file_path with
  | Some bytes => emit {| arcname := arcname; data := bytes |}
  | None => raise (FileNotFoundError (path_str file_path))
  end.

(** [create_zip_archive(output_path, files, base_dir)]: the log is the
    members written to the archive at [output_path]; an exception is
    logged and raised again, so it ends the call as it arose. *)
Definition create_zip_archive (output_path : path) (files : list path)
           (base_dir : path) : W zip_entry unit :=
  for_each files (fun file_path =>
    arcname <- lift (relative_to file_path base_dir) ;;
    zf_write file_path arcname).

End Archive.

End FileUtils.

(* ===================================================================== *)
(** * qualys_client.py: the polling loop                                  *)
(* ===================================================================== *)

Module QualysClient.
Import Py.

(** What one GET of [.../iac/scanResult] comes to: the decoded JSON body,
    or the [requests.RequestException] of a network failure, of a status
    that [raise_for_status] rejects, or of a body that is not JSON. *)
Inductive response : Type :=
| Json (data : value)
| Failed (msg : string).

(** A reply of the service: the seconds the request takes and its outcome. *)
Record reply : Type := { latency : nat; answer : response }.

(** The service as the loop sees it: the reply to the [k]-th GET (counted
    from 0) for a given [scanUuid]. *)
Definition service : Type := string -> nat -> reply.

(** The clock ([time.time()], in seconds) and the instants at which the GETs
    made so far were sent, the latest first. *)
Record world : Type := { now : Z; requests : list Z }.

(** [time.sleep(seconds)]: a negative length is refused. *)
Definition sleep (seconds : Z) (w : world) : world * result unit :=
  if (seconds <? 0)%Z
  then (w, Raise (ValueError "sleep length must be non-negative"))
  else ({| now := now w + seconds; requests := requests w |}, Return tt).

(** [self._session.get(results_url, ...)] followed by [raise_for_status()]
    and [response.json()]. *)
Definition session_get (srv : service) (scan_uuid : string) (w : world)
  : world * response :=
  let r := srv scan_uuid (List.length (requests w)) in
  ({| now := now w + Z.of_nat (latency r); requests := now w :: requests w |},
   answer r).

Definition timeout_message (timeout : Z) : string :=
  "Scan did not finish within the " ++ str_int timeout ++ "s timeout period.".

(** The [while] loop of [poll_scan_results]; [fuel] bounds the number of
    iterations, and [None] means the bound was reached with the loop still
    running. *)
Fixpoint poll_loop (fuel : nat) (srv : service) (scan_uuid : string)
         (interval timeout start_time : Z) (w : world)
  : option (world * result value) :=
  match fuel with
  | O => None
  | S fuel' =>
      if (now w - start_time <? timeout)%Z
      then
        let '(w1, resp) := session_get srv scan_uuid w in
        match resp with
        | Failed msg => Some (w1, Raise (RequestException msg))
        | Json data =>
            match get data "status" (PStr "UNKNOWN") with
            | Raise e => Some (w1, Raise e)
            | Return status =>
                if eq_str status "FINISHED"
                then Some (w1, Return data)
                else
                  match sleep interval w1 with
                  | (w2, Raise e) => Some (w2, Raise e)
                  | (w2, Return _) =>
                      poll_loop fuel' srv scan_uuid interval timeout start_time w2
                  end
            end
        end
      else Some (w, Raise (TimeoutError (timeout_message timeout)))
  end.

(** [poll_scan_results(scan_uuid, interval, timeout)]. *)
Definition poll_scan_results (fuel : nat) (srv : service) (scan_uuid : string)
           (interval timeout : Z) (w : world) : option (world * result value) :=
  let start_time := now w in
  poll_loop fuel srv scan_uuid interval timeout start_time w.

(** A world in which no GET has been made yet. *)
Definition fresh (t0 : Z) : world := {| now := t0; requests := [] |}.

(** The body of a reply carries a status other than ["FINISHED"]: another
    string, a value that is no string, or no status at all. *)
Definition non_terminal (r : reply) : Prop :=
  exists d, answer r = Json (PDict d) /\ lookup d "status" <> Some (PStr "FINISHED").

(** The body of a reply is the dictionary [data] with status ["FINISHED"]. *)
Definition terminal (r : reply) (data : value) : Prop :=
  exists d, data = PDict d /\ answer r = Json data
            /\ lookup d "status" = Some (PStr "FINISHED").

(** Seconds on the clock after [n] rounds of GET and sleep. *)
Fixpoint elapsed_after (srv : service) (scan_uuid : string) (interval : Z) (n : nat) : Z :=
  match n with
  | O => 0
  | S n' =>
      elapsed_after srv scan_uuid interval n'
      + Z.of_nat (latency (srv scan_uuid n')) + interval
  end.

(** ** The client object: construction, upload, SARIF *)

(** [s.rstrip("/")]. *)
Fixpoint rstrip_slash (s : string) : string :=
  match s with
  | EmptyString => EmptyString
  | String c s' =>
      match rstrip_slash s' with
      | EmptyString => if (c =? "/")%char then EmptyString else String c EmptyString
      | rest => String c rest
      end
  end.

(** An [ssl.SSLContext] as far as the client touches it: the CA file it
    was created from and its verify flags, an integer read bit by bit. *)
Record ssl_context : Type := { cafile : string; verify_flags : Z }.

(** [ssl.VERIFY_X509_STRICT], the flag [0x20]. *)
Definition VERIFY_X509_STRICT : Z := 32.

(** A [requests.Session]: its headers (a dictionary whose keys compare
    without case, kept in insertion order) and the context of the adapter
    mounted for [https://] ([None]: the adapter a session starts with). *)
Record session : Type := {
  headers : list (string * string);
  https_context : option ssl_context
}.

(** [headers[key] = value]: the item whose key is [key], case set aside, is
    replaced where it stands; without one the item is added at the end. *)
Fixpoint set_header (hs : list (string * string)) (key value : string)
  : list (string * string) :=
  match hs with
  | [] => [(key, value)]
  | (k, v) :: hs' =>
      if FileUtils.lower k =? FileUtils.lower key
      then (key, value) :: hs'
      else (k, v) :: set_header hs' key value
  end.

(** [headers.get(key)]. *)
Fixpoint get_header (hs : list (string * string)) (key : string) : option string :=
  match hs with
  | [] => None
  | (k, v) :: hs' =>
      if FileUtils.lower k =? FileUtils.lower key then Some v else get_header hs' key
  end.

(** The attributes of a [QualysApiClient]. *)
Record QualysApiClient : Type := {
  base_url : string;
  _auth : string * string;
  _session : session
}.

(** A part of a multipart body: the form field, and the file name, content
    and content type given for it. *)
Record part : Type := {
  field : string;
  filename : option string;
  content : string;
  content_type : option string
}.

Inductive method : Type := GET | POST.

(** A request as the client hands it to its session. *)
Record request : Type := {
  verb : method;
  url : string;
  auth : string * string;
  params : list (string * value);
  request_headers : list (string * string);
  files : list part;
  sent_through : session
}.

(** What comes back: a body that passed [raise_for_status], or the
    [requests.RequestException] of a network failure or a rejected status. *)
Inductive http_response : Type :=
| Body (text : string)
| Refused (msg : string).

Section Client.

(** The surroundings of a client: whether a path is a regular file, what
    [ssl.create_default_context(cafile=...)] gives for it, the bits over
    which [~] inverts a verify flag (all of them, [-1], where [~] is the
    complement of the integer), the headers a fresh session has, the
    service answering the requests, what [response.json()] gives for a
    body, the files that can be read and those that can be written. *)
Variable is_file : string -> bool.
Variable create_default_context : string -> result ssl_context.
Variable flag_bits : Z.
Variable default_headers : list (string * string).
Variable transport : request -> http_response.
Variable response_json : string -> result value.
Variable read_bytes : FileUtils.path -> option string.
Variable writable : FileUtils.path -> bool.

(** [~flag] on a verify flag. *)
Definition invert_flag (flag : Z) : Z := Z.land flag_bits (Z.lnot flag).

(** [self._configure_ssl(custom_ca_bundle)], acting on [self._session]. *)
Definition _configure_ssl (custom_ca_bundle : option string) (s : session)
  : session * result unit :=
  match custom_ca_bundle with
  | None => (s, Return tt)
  | Some bundle =>
      if bundle =? "" then (s, Return tt)
      else if negb (is_file bundle)
      then (s, Raise (FileNotFoundError ("Custom CA bundle not found at: " ++ bundle)))
      else
        match create_default_context bundle with
        | Raise e => (s, Raise e)
        | Return context =>
            let context :=
              {| cafile := cafile context;
                 verify_flags := Z.land (verify_flags context)
                                        (invert_flag VERIFY_X509_STRICT) |} in
            ({| headers := headers s; https_context := Some context |}, Return tt)
        end
  end.

(** [QualysApiClient(base_url, username, password, custom_ca_bundle)]. *)
Definition __init__ (url username password : string) (custom_ca_bundle : option string)
  : result QualysApiClient :=
  let fresh_session :=
    {| headers := set_header default_headers "Accept" "application/json";
       https_context := None |} in
  match _configure_ssl custom_ca_bundle fresh_session with
  | (s, Return _) =>
      Return {| base_url := rstrip_slash url;
                _auth := (username, password);
                _session := s |}
  | (_, Raise e) => Raise e
  end.

(** The request [initiate_scan] posts. *)
Definition scan_request (self : QualysApiClient) (zip_file_path : FileUtils.path)
           (f scan_name : string) : request :=
  {| verb := POST;
     url := base_url self ++ "/cloudview-api/rest/v1/iac/scan";
     auth := _auth self;
     params := [];
     request_headers := [];
     files := [ {| field := "file";
                   filename := Some (FileUtils.name zip_file_path);
                   content := f;
                   content_type := Some "application/zip" |};
                {| field := "name";
                   filename := None;
                   content := scan_name;
                   content_type := None |} ];
     sent_through := _session self |}.

(** [self.initiate_scan(zip_file_path, scan_name)]. *)
Definition initiate_scan (self : QualysApiClient) (zip_file_path : FileUtils.path)
           (scan_name : string) : result value :=
  match read_bytes zip_file_path with
  | None => Raise (FileNotFoundError (FileUtils.path_str zip_file_path))
  | Some f =>
      match transport (scan_request self zip_file_path f scan_name) with
      | Refused msg => Raise (RequestException msg)
      | Body text =>
          match response_json text with
          | Raise e => Raise e
          | Return response_data =>
              match get response_data "scanUuid" PNone with
              | Raise e => Raise e
              | Return scan_uuid =>
                  if negb (truthy scan_uuid)
                  then Raise (ValueError "API response did not contain a 'scanUuid'.")
                  else Return scan_uuid
              end
          end
      end
  end.

(** The request [get_sarif_results] sends. *)
Definition sarif_request (self : QualysApiClient) (scan_uuid : value) : request :=
  {| verb := GET;
     url := base_url self ++ "/cloudview-api/rest/v1/iac/scanResult";
     auth := _auth self;
     params := [("scanUuid", scan_uuid)];
     request_headers := [("responseFormat", "sarif")];
     files := [];
     sent_through := _session self |}.

(** [self.get_sarif_results(scan_uuid)]: the log is the files written,
    each with its text. *)
Definition get_sarif_results (self : QualysApiClient) (scan_uuid : value)
  : W (FileUtils.path * string) unit :=
  match transport (sarif_request self scan_uuid) with
  | Refused msg => raise (RequestException msg)
  | Body sarif_data =>
      let results_file : FileUtils.path := ["results.sarif"] in
      if writable results_file
      then emit (results_file, sarif_data)
      else raise (OSError (FileUtils.path_str results_file))
  end.

End Client.

End QualysClient.

(* ===================================================================== *)
(** * main.py: the orchestrated run                                       *)
(* ===================================================================== *)

Module Main.
Import Py.

(** The fields of [AppConfig] the workflow reads. *)
Record AppConfig : Type := {
  iac_template_dir : FileUtils.path;
  qualys_base_url : string;
  qualys_username : string;
  qualys_password : string;
  qualys_custom_ca_bundle : option string;
  poll_interval : Z;
  poll_timeout : Z
}.

(** What the workflow asks of a [QualysApiClient], each call given by how
    it ends. *)
Record client : Type := {
  initiate_scan : FileUtils.path -> string -> result value;
  poll_scan_results : value -> Z -> Z -> result value;
  get_sarif_results : value -> result unit
}.

(** What is logged at the branching points of the workflow. *)
Inductive log_event : Type :=
| NoTemplates
| CriticalError (e : exception)
| UnexpectedError (e : exception)
| CleaningUp (p : FileUtils.path).

(** The state the workflow acts on: the files present on disk, the local
    variable [zip_file_path] ([None] until it is assigned) and the log. *)
Record state : Type := {
  files : list FileUtils.path;
  zip_file_path : option FileUtils.path;
  log : list log_event
}.

(** Statements: state transformers that return or raise. *)
Definition stmt (A : Type) : Type := state -> state * result A.

Definition throw {A} (e : exception) : stmt A := fun s => (s, Raise e).
Definition call {A} (r : result A) : stmt A := fun s => (s, r).

Definition seq {A B} (m : stmt A) (k : A -> stmt B) : stmt B :=
  fun s =>
    match m s with
    | (s1, Return a) => k a s1
    | (s1, Raise e) => (s1, Raise e)
    end.

(** [try: body / except ...: handler]: [handler e] is the clause that
    catches [e], if one does. *)
Definition try_except {A} (body : stmt A) (handler : exception -> option (stmt A))
  : stmt A :=
  fun s =>
    match body s with
    | (s1, Return a) => (s1, Return a)
    | (s1, Raise e) =>
        match handler e with
        | Some h => h s1
        | None => (s1, Raise e)
        end
    end.

(** [try: body / finally: final]: [final] runs however [body] ended; the
    outcome is that of [body] unless [final] itself raises. *)
Definition try_finally {A} (body : stmt A) (final : stmt unit) : stmt A :=
  fun s =>
    let '(s1, r) := body s in
    match final s1 with
    | (s2, Return _) => (s2, r)
    | (s2, Raise e) => (s2, Raise e)
    end.

(** [sys.exit(code)]. *)
Definition sys_exit {A} (code : Z) : stmt A := throw (SystemExit code).

Definition logging (ev : log_event) : stmt unit :=
  fun s => ({| files := files s; zip_file_path := zip_file_path s;
               log := (log s ++ [ev])%list |}, Return tt).

Definition assign_zip_file_path (p : FileUtils.path) : stmt unit :=
  fun s => ({| files := files s; zip_file_path := Some p; log := log s |}, Return tt).

(** A file comes to exist at [p] (opened for writing). *)
Definition create_file (p : FileUtils.path) : stmt unit :=
  fun s => ({| files := p :: files s; zip_file_path := zip_file_path s;
               log := log s |}, Return tt).

Definition path_eqb (p q : FileUtils.path) : bool :=
  if list_eq_dec string_dec p q then true else false.

(** [p.exists()]. *)
Definition path_exists (p : FileUtils.path) (s : state) : bool :=
  existsb (path_eqb p) (files s).

(** [os.remove(p)]. *)
Definition os_remove (p : FileUtils.path) : stmt unit :=
  fun s => ({| files := filter (fun q => negb (path_eqb p q)) (files s);
               zip_file_path := zip_file_path s; log := log s |}, Return tt).

(** [isinstance(e, (ValueError, FileNotFoundError, TimeoutError,
    ssl.SSLError))], the classes of the first [except] clause
    ([UnicodeDecodeError] is a [ValueError]), and [isinstance(e, Exception)]. *)
Definition is_critical (e : exception) : bool :=
  match e with
  | ValueError _ | UnicodeDecodeError
  | FileNotFoundError _ | TimeoutError _ | SSLError _ => true
  | _ => false
  end.

Definition is_Exception (e : exception) : bool :=
  match e with
  | KeyboardInterrupt | SystemExit _ => false
  | _ => true
  end.

Definition results_file : FileUtils.path := ["results.json"].
Definition sarif_file : FileUtils.path := ["results.sarif"].

Section Workflow.

(** The surroundings of one run: the tree at the template directory, the
    readable files, the clock's timestamp, whether the archive can be
    opened for writing, the client the constructor yields (or the error
    it raises), whether [results.json] can be opened for writing and how
    dumping the results into it ends. *)
Variable at_root : option FileUtils.node.
Variable read_bytes : FileUtils.path -> option string.
Variable not_in_subpath : FileUtils.path -> FileUtils.path -> string.
Variable timestamp : string.
Variable zip_opens : result unit.
Variable QualysApiClient : string -> string -> string -> option string -> result client.
Variable results_opens : result unit.
Variable json_dump : value -> result unit.

Definition zip_file_name : string := ".iac-scan-" ++ timestamp ++ ".zip".

(** [create_zip_archive] as a statement: opening the archive for writing
    creates the file; the members are then written as [FileUtils] says. *)
Definition create_zip_archive (output_path : FileUtils.path)
           (template_files : list FileUtils.path) (base_dir : FileUtils.path)
  : stmt unit :=
  seq (call zip_opens) (fun _ =>
  seq (create_file output_path) (fun _ =>
  call (snd (FileUtils.create_zip_archive read_bytes not_in_subpath
                                          output_path template_files base_dir)))).

(** [client.get_sarif_results(scan_uuid)] as a statement: when the request
    succeeds the text is written to [results.sarif]. *)
Definition save_sarif_results (c : client) (scan_uuid : value) : stmt unit :=
  seq (call (get_sarif_results c scan_uuid)) (fun _ =>
  create_file sarif_file).

(** [with open(results_file, "w") as f: json.dump(results, f, indent=4)]. *)
Definition save_results (results : value) : stmt unit :=
  seq (call results_opens) (fun _ =>
  seq (create_file results_file) (fun _ =>
  call (json_dump results))).

(** The body of the [try] block. *)
Definition try_body (config : AppConfig) : stmt unit :=
  let template_dir := iac_template_dir config in
  seq (call (FileUtils.find_iac_templates template_dir at_root)) (fun template_files =>
  match template_files with
  | [] => logging NoTemplates
  | _ =>
      let zip_path : FileUtils.path := [zip_file_name] in
      seq (assign_zip_file_path zip_path) (fun _ =>
      seq (create_zip_archive zip_path template_files template_dir) (fun _ =>
      seq (call (QualysApiClient (qualys_base_url config) (qualys_username config)
                                 (qualys_password config)
                                 (qualys_custom_ca_bundle config))) (fun client =>
      let scan_name := "iac-scan-" ++ timestamp in
      seq (call (initiate_scan client zip_path scan_name)) (fun scan_uuid =>
      seq (call (poll_scan_results client scan_uuid (poll_interval config)
                                   (poll_timeout config))) (fun results =>
      seq (save_sarif_results client scan_uuid) (fun _ =>
      save_results results))))))
  end).

(** The two [except] clauses, in order. *)
Definition handlers (e : exception) : option (stmt unit) :=
  if is_critical e
  then Some (seq (logging (CriticalError e)) (fun _ => sys_exit 1))
  else if is_Exception e
  then Some (seq (logging (UnexpectedError e)) (fun _ => sys_exit 1))
  else None.

(** The [finally] clause. *)
Definition cleanup : stmt unit :=
  fun s =>
    match zip_file_path s with
    | Some p =>
        if path_exists p s
        then seq (logging (CleaningUp p)) (fun _ => os_remove p) s
        else (s, Return tt)
    | None => (s, Return tt)
    end.

(** [run_scan_workflow(config)], started with the given files on disk. *)
Definition run_scan_workflow (config : AppConfig) (disk : list FileUtils.path)
  : state * result unit :=
  try_finally (try_except (try_body config) handlers) cleanup
              {| files := disk; zip_file_path := None; log := [] |}.

End Workflow.

(** [isinstance(e, ValueError)]. *)
Definition is_ValueError (e : exception) : bool :=
  match e with
  | ValueError _ | UnicodeDecodeError => true
  | _ => false
  end.

Section EntryPoint.

(** The surroundings of the script: those of the workflow, and how
    [load_config()] ends. *)
Variable at_root : option FileUtils.node.
Variable read_bytes : FileUtils.path -> option string.
Variable not_in_subpath : FileUtils.path -> FileUtils.path -> string.
Variable timestamp : string.
Variable zip_opens : result unit.
Variable QualysApiClient : string -> string -> string -> option string -> result client.
Variable results_opens : result unit.
Variable json_dump : value -> result unit.
Variable load_config : result AppConfig.

(** The [if __name__ == "__main__":] block, started with the given files on
    disk: the configuration is loaded, the workflow is run, and a
    [ValueError] from either ends in [sys.exit(1)].  The two messages the
    clause logs are no events of the workflow; the log does not hold
    them. *)
Definition script (disk : list FileUtils.path) : state * result unit :=
  try_except
    (seq (call load_config) (fun app_config =>
     fun s => run_scan_workflow at_root read_bytes not_in_subpath timestamp
                                zip_opens QualysApiClient results_opens json_dump
                                app_config (files s)))
    (fun e => if is_ValueError e then Some (sys_exit 1) else None)
    {| files := disk; zip_file_path := None; log := [] |}.

End EntryPoint.

End Main.

(* ===================================================================== *)
(** * Properties of the effect combinators                                *)
(* ===================================================================== *)

Section Combinators.
Import Py.

Lemma bind_ret {L A B} (a : A) (k : A -> W L B) : bind (ret a) k = k a.
Proof. unfold bind, ret. destruct (k a); reflexivity. Qed.

Lemma bind_lift_return {L A B} (a : A) (k : A -> W L B) :
  bind (lift (Return a)) k = k a.
Proof. apply bind_ret. Qed.

Lemma bind_emit {L B} (x : L) (k : unit -> W L B) :
  bind (emit x) k = (x :: fst (k tt), snd (k tt)).
Proof. unfold bind, emit. destruct (k tt); reflexivity. Qed.

Lemma bind_returns {L A B} (m : W L A) (k : A -> W L B) (out : list L) (a : A) :
  m = (out, Return a) -> bind m k = ((out ++ fst (k a))%list, snd (k a)).
Proof. intros ->. unfold bind. destruct (k a); reflexivity. Qed.

Lemma bind_raises {L A B} (m : W L A) (k : A -> W L B) (out : list L) (e : exception) :
  m = (out, Raise e) -> bind m k = (out, Raise e).
Proof. intros ->. reflexivity. Qed.

(** A loop whose body only yields is the image of the list. *)
Lemma for_each_emit {L A} (f : A -> L) (xs : list A) :
  for_each xs (fun x => emit (f x)) = (map f xs, Return tt).
Proof.
  induction xs as [|x xs IH]; cbn [for_each map].
  - reflexivity.
  - rewrite bind_emit, IH. reflexivity.
Qed.

(** A loop whose body returns on every element returns, and its log is
    the concatenation of the logs of the rounds. *)
Lemma for_each_returns {L A} (body : A -> W L unit) (out : A -> list L) (xs : list A) :
  Forall (fun x => body x = (out x, Return tt)) xs ->
  for_each xs body = (flat_map out xs, Return tt).
Proof.
  induction 1 as [|x xs Hx _ IH]; cbn [for_each flat_map].
  - reflexivity.
  - rewrite (bind_returns _ _ _ _ Hx), IH. reflexivity.
Qed.

(** The first round that raises ends the loop. *)
Lemma for_each_raises {L A} (body : A -> W L unit) (out : A -> list L)
      (xs : list A) (x : A) (ys : list A) (log : list L) (e : exception) :
  Forall (fun x => body x = (out x, Return tt)) xs ->
  body x = (log, Raise e) ->
  for_each (xs ++ x :: ys) body = ((flat_map out xs ++ log)%list, Raise e).
Proof.
  intros Hxs Hx. induction Hxs as [|y xs Hy _ IH]; cbn [for_each flat_map app].
  - rewrite (bind_raises _ _ _ _ Hx). reflexivity.
  - rewrite (bind_returns _ _ _ _ Hy), IH. cbn [fst snd].
    rewrite app_assoc. reflexivity.
Qed.
End Combinators.

(* ===================================================================== *)
(** * resultParser.py: extraction                                         *)
(* ===================================================================== *)

Section Extraction.
Import Py ResultParser.

(** ** The payload as the data model describes it

    An element of [result] is read as a [ResultEntry] when it is a
    dictionary whose [results], if present, is a dictionary in which
    [parsingErrors] and [failedChecks] are lists (absent and [null] count
    as empty); every value that is not a dictionary is read as no record. *)
Inductive entry_view : Type :=
| NotARecord
| ResultEntry (parsing_errors failed_checks : list value).

Definition list_field (inner : list (string * value)) (key : string)
  : option (list value) :=
  match lookup inner key with
  | None => Some []
  | Some PNone => Some []
  | Some (PList l) => Some l
  | Some _ => None
  end.

Definition view (entry : value) : option entry_view :=
  match entry with
  | PDict fields =>
      match lookup fields "results" with
      | None => Some (ResultEntry [] [])
      | Some (PDict inner) =>
          match list_field inner "parsingErrors", list_field inner "failedChecks" with
          | Some parsing_errors, Some failed_checks =>
              Some (ResultEntry parsing_errors failed_checks)
          | _, _ => None
          end
      | Some _ => None
      end
  | _ => Some NotARecord
  end.

(** The records the specification asks for one entry: one parsing-error
    record with the whole list when the list is not empty, then one
    failed-check record per failed check, in order. *)
Definition expected_records (v : entry_view) : list failure :=
  match v with
  | NotARecord => []
  | ResultEntry parsing_errors failed_checks =>
      (match parsing_errors with
       | [] => []
       | _ => [ParsingError (PList parsing_errors)]
       end ++ map FailedCheck failed_checks)%list
  end.

Lemma list_field_get (inner : list (string * value)) (key : string) (l : list value) :
  list_field inner key = Some l ->
  exists v, get (PDict inner) key PNone = Return v
            /\ (l = [] /\ truthy v = false
                \/ l <> [] /\ v = PList l /\ truthy v = true).
Proof.
  unfold list_field, get. intros H.
  destruct (lookup inner key) as [[ | | | | |l'| ]|]; try discriminate;
    injection H as <-; eexists; (split; [reflexivity|]).
  - left; split; reflexivity.
  - destruct l'; [left|right]; repeat split; congruence.
  - left; split; reflexivity.
Qed.

(** One round of the loop on an entry the data model accounts for. *)
Lemma extract_entry_view (entry : value) (v : entry_view) :
  view entry = Some v ->
  extract_entry entry = (expected_records v, Return tt).
Proof.
  unfold view, extract_entry. intros H.
  destruct entry as [ | | | | | |fields]; try (injection H as <-; reflexivity).
  cbn [is_dict negb get].
  destruct (lookup fields "results") as [[ | | | | | |inner]|]; try discriminate.
  - destruct (list_field inner "parsingErrors") as [pe|] eqn:Hpe; [|discriminate].
    destruct (list_field inner "failedChecks") as [fc|] eqn:Hfc; [|discriminate].
    injection H as <-.
    destruct (list_field_get _ _ _ Hpe) as (vpe & Gpe & Cpe).
    destruct (list_field_get _ _ _ Hfc) as (vfc & Gfc & Cfc).
    rewrite !bind_lift_return, Gpe, bind_lift_return.
    destruct Cpe as [(-> & Tpe)|(Npe & -> & Tpe)]; rewrite Tpe.
    + rewrite bind_ret, Gfc, bind_lift_return.
      destruct Cfc as [(-> & Tfc)|(Nfc & -> & Tfc)]; rewrite Tfc.
      * reflexivity.
      * cbn [iterate]. rewrite bind_lift_return, for_each_emit. reflexivity.
    + rewrite bind_emit, Gfc, bind_lift_return.
      destruct Cfc as [(-> & Tfc)|(Nfc & -> & Tfc)]; rewrite Tfc.
      * destruct pe; [congruence|reflexivity].
      * cbn [iterate]. rewrite bind_lift_return, for_each_emit.
        destruct pe; [congruence|reflexivity].
  - injection H as <-. reflexivity.
Qed.

(** An element that is not a dictionary is passed over. *)
Lemma extract_entry_not_dict (entry : value) :
  is_dict entry = false -> extract_entry entry = ([], Return tt).
Proof. unfold extract_entry. intros ->. reflexivity. Qed.

(** A dictionary entry whose [results] is there but is no dictionary is not
    passed over: the lookup inside it raises. *)
Lemma extract_entry_results_not_dict (fields : list (string * value)) (r : value) :
  lookup fields "results" = Some r -> is_dict r = false ->
  extract_entry (PDict fields) = ([], Raise AttributeError).
Proof.
  unfold extract_entry. cbn [is_dict negb get]. intros -> Hr.
  rewrite bind_lift_return. destruct r; try discriminate; reflexivity.
Qed.

Lemma flat_map_views (entries : list value) (views : list entry_view) :
  Forall2 (fun e v => view e = Some v) entries views ->
  flat_map (fun e => match view e with
                     | Some v => expected_records v
                     | None => []
                     end) entries
  = flat_map expected_records views.
Proof.
  induction 1 as [|e v entries views Hev _ IH]; cbn [flat_map].
  - reflexivity.
  - rewrite Hev, IH. reflexivity.
Qed.

(** The payload of the specification's example: one entry with a non-empty
    [parsingErrors], another with two [failedChecks] (and, between them, an
    element that is no dictionary). *)
Definition two_entries : list value :=
  [ PDict [("results", PDict [("parsingErrors", PList [PStr "broken.tf"])])];
    PInt 7;
    PDict [("results",
            PDict [("failedChecks",
                    PList [ PDict [("checkId", PStr "CID-1")];
                            PDict [("checkId", PStr "CID-2")] ])])] ].

Definition two_entry_payload : list (string * value) :=
  [ ("status", PStr "FINISHED"); ("result", PList two_entries) ].

(** A payload with an entry that is a dictionary but holds [null] where the
    data model has the inner record. *)
Definition null_results_payload : list (string * value) :=
  [ ("status", PStr "FINISHED");
    ("result", PList [PDict [("results", PNone)]]) ].

(** The elements of [result] as the data model has them: the list under
    the key, and no element when the key is missing. *)
Definition result_entries (payload : list (string * value)) : option (list value) :=
  match lookup payload "result" with
  | None => Some []
  | Some (PList entries) => Some entries
  | Some _ => None
  end.

(** With the elements of [result] at hand, the generator is the loop
    over them. *)
Lemma extract_failures_loop (payload : list (string * value)) (entries : list value) :
  result_entries payload = Some entries ->
  extract_failures (PDict payload) = for_each entries extract_entry.
Proof.
  intros Hresult. unfold extract_failures. cbn [get].
  assert (iterate match lookup payload "result" with
                  | Some x => x
                  | None => PList []
                  end = Return entries) as Hiter.
  { unfold result_entries in Hresult.
    destruct (lookup payload "result") as [[ | | | | |l| ]|];
      try discriminate Hresult; now injection Hresult as <-. }
  now rewrite bind_lift_return, Hiter, bind_lift_return.
Qed.

Lemma extract_entry_views (entries : list value) (views : list entry_view) :
  Forall2 (fun e v => view e = Some v) entries views ->
  Forall (fun e => extract_entry e
                   = (match view e with
                      | Some v => expected_records v
                      | None => []
                      end, Return tt)) entries.
Proof.
  induction 1 as [|e v entries' views' Hev _ IH]; constructor; [|exact IH].
  rewrite Hev. now apply extract_entry_view.
Qed.

(** C5 (as amended).  For a payload whose [result] elements are each either
    no dictionary or a dictionary the data model accounts for,
    [extract_failures] runs to its end and yields, entry by entry in order,
    one parsing-error record with the whole [parsingErrors] list when that
    list is not empty, then one failed-check record per element of
    [failedChecks] in their order; elements that are not dictionaries yield
    nothing.  When such elements are followed by a dictionary whose
    [results] is there but is no dictionary, the generator yields their
    records and then raises [AttributeError]: that entry is not skipped. *)
Theorem extract_failures_by_entry
        (payload : list (string * value)) (entries : list value)
        (views : list entry_view) :
  Forall2 (fun e v => view e = Some v) entries views ->
  (result_entries payload = Some entries ->
   extract_failures (PDict payload) = (flat_map expected_records views, Return tt))
  /\ (forall fields r rest,
         result_entries payload = Some (entries ++ PDict fields :: rest)%list ->
         lookup fields "results" = Some r ->
         is_dict r = false ->
         extract_failures (PDict payload)
         = (flat_map expected_records views, Raise AttributeError)).
Proof.
  intros Hviews. split.
  - intros Hresult. rewrite (extract_failures_loop _ _ Hresult).
    rewrite <- (flat_map_views _ _ Hviews).
    apply for_each_returns. now apply extract_entry_views with (views := views).
  - intros fields r rest Hresult Hr Hnot.
    rewrite (extract_failures_loop _ _ Hresult).
    rewrite <- (flat_map_views _ _ Hviews), <- (app_nil_r (flat_map _ entries)).
    apply for_each_raises.
    + now apply extract_entry_views with (views := views).
    + now apply extract_entry_results_not_dict with (r := r).
Qed.

(** The example of the specification: three records, the parsing error
    first, then the two failed checks; the integer between the two entries
    is passed over. *)
Lemma extract_failures_three_records :
  extract_failures (PDict two_entry_payload)
  = ([ ParsingError (PList [PStr "broken.tf"]);
       FailedCheck (PDict [("checkId", PStr "CID-1")]);
       FailedCheck (PDict [("checkId", PStr "CID-2")]) ],
     Return tt).
Proof.
  apply (extract_failures_by_entry
           two_entry_payload two_entries
           [ ResultEntry [PStr "broken.tf"] [];
             NotARecord;
             ResultEntry [] [ PDict [("checkId", PStr "CID-1")];
                              PDict [("checkId", PStr "CID-2")] ] ]).
  - repeat constructor.
  - reflexivity.
Defined.

(** C5 (as stated) fails: a dictionary entry whose [results] is [null] is
    no well-formed record, yet it is not skipped; the generator raises. *)
Lemma extract_failures_null_results_raises :
  Forall (fun e => view e = None)
         [PDict [("results", PNone)]]
  /\ extract_failures (PDict null_results_payload) = ([], Raise AttributeError)
  /\ extract_failures (PDict null_results_payload) <> ([], Return tt).
Proof.
  split; [repeat constructor|]. split; [reflexivity|discriminate].
Qed.

End Extraction.

(* ===================================================================== *)
(** * resultParser.py: reporting                                          *)
(* ===================================================================== *)

Section Reporting.
Import Py ResultParser.

Variable float_repr : spec_float -> string.
Variable str_repr : string -> string.

Let str := Py.str float_repr str_repr.

(** The text the specification asks for a field of a failed check: the
    value, or the literal [None] when the field is missing or empty. *)
Definition field_text (check : list (string * value)) (key : string) : string :=
  match lookup check key with
  | Some v => if truthy v then str v else "None"
  | None => "None"
  end.

(** The line the specification asks for a failed check: the five labelled
    fields in their fixed order, joined by commas, after the marker. *)
Definition check_line (check : list (string * value)) : string :=
  "::error::File Name=" ++ field_text check "filePath"
  ++ ", Qualys CID=" ++ field_text check "checkId"
  ++ ", Control Name=" ++ field_text check "checkName"
  ++ ", Criticality=" ++ field_text check "criticality"
  ++ ", Remediation=" ++ field_text check "remediation".

Lemma render_field_dict (check : list (string * value)) (key : string) :
  render_field float_repr str_repr (PDict check) key
  = Return (mapping_get FIELD_MAPPING key key ++ "=" ++ field_text check key).
Proof.
  unfold render_field, field_text, py_or. cbn [get].
  destruct (lookup check key) as [v|].
  - destruct (truthy v); reflexivity.
  - reflexivity.
Qed.

Lemma append_assoc (a b c : string) : (a ++ b) ++ c = a ++ (b ++ c).
Proof. induction a as [|x a IH]; cbn; [reflexivity|now rewrite IH]. Qed.

(** The line of a failed check, for every dictionary of check details. *)
Lemma report_one_failed_check (check : list (string * value)) :
  report_one float_repr str_repr (FailedCheck (PDict check))
  = ([(Stdout, check_line check)], Return tt).
Proof.
  unfold report_one. cbn [map fst FIELD_MAPPING map_result].
  rewrite !render_field_dict. reflexivity.
Qed.


End Reporting.

(** The end-to-end example of the specification: a check with only an
    identifier and a criticality. *)
Definition cid1_check : list (string * Py.value) :=
  [("checkId", Py.PStr "CID-1"); ("criticality", Py.PStr "HIGH")].


(* ===================================================================== *)
(** * resultParser.py: the exit status                                    *)
(* ===================================================================== *)

Section ExitStatus.
Import Py ResultParser.

Variable read_file : string -> read_outcome.
Variable json_loads : string -> option value.
Variable float_repr : spec_float -> string.
Variable str_repr : string -> string.

Lemma snd_bind {L A B} (m : W L A) (k : A -> W L B) :
  snd (bind m k) = match snd m with
                   | Return a => snd (k a)
                   | Raise e => Raise e
                   end.
Proof.
  destruct m as [out [a|e]]; cbn; [destruct (k a)|]; reflexivity.
Qed.

(** The flag of the reporting loop: set by the first record. *)
Lemma report_loop_flag (records : list failure) (flag any : bool) :
  snd (report_loop float_repr str_repr records flag) = Return any ->
  any = flag || match records with [] => false | _ => true end.
Proof.
  revert flag. induction records as [|f rest IH]; intros flag; cbn [report_loop].
  - cbn. intros [= <-]. now rewrite orb_false_r.
  - rewrite snd_bind.
    destruct (snd (report_one float_repr str_repr f)); [|discriminate].
    intros H. apply IH in H. rewrite H. now rewrite orb_true_r.
Qed.

(** What [report_failures] returns, when it returns: whether the generator
    yielded anything; and it returns only if the generator ran to its end. *)
Lemma report_failures_returns (failures : W failure unit) (any : bool) :
  snd (report_failures float_repr str_repr failures) = Return any ->
  snd failures = Return tt
  /\ any = match fst failures with [] => false | _ => true end.
Proof.
  unfold report_failures. rewrite snd_bind.
  destruct (snd (report_loop float_repr str_repr (fst failures) false))
    as [has|] eqn:Hloop; [|discriminate].
  apply report_loop_flag in Hloop. cbn [orb] in Hloop.
  destruct (snd failures) as [[]|]; cbn; [|discriminate].
  intros [= <-]. now split.
Qed.

(** Nothing to report: the loop prints nothing and returns [False]. *)
Lemma report_failures_nothing :
  report_failures float_repr str_repr ([], Return tt) = ([], Return false).
Proof. reflexivity. Qed.

(** The result of [main], by the stages the run goes through. *)
Lemma main_result (file_path : string) :
  snd (main read_file json_loads float_repr str_repr file_path)
  = match snd (load_scan_data read_file json_loads file_path) with
    | Raise e => Raise e
    | Return scan_data =>
        if negb (truthy scan_data) then Return 1%Z
        else
          match get scan_data "status" PNone with
          | Raise e => Raise e
          | Return status =>
              if negb (eq_str status "FINISHED") then Return 1%Z
              else
                match snd (report_failures float_repr str_repr
                                           (extract_failures scan_data)) with
                | Raise e => Raise e
                | Return any => Return (if any then 1%Z else 0%Z)
                end
          end
    end.
Proof.
  unfold main. rewrite snd_bind.
  destruct (snd (load_scan_data read_file json_loads file_path))
    as [scan_data|e]; [|reflexivity].
  destruct (negb (truthy scan_data)); [reflexivity|].
  rewrite snd_bind. cbn [lift snd].
  destruct (get scan_data "status" PNone) as [status|e]; [|reflexivity].
  destruct (negb (eq_str status "FINISHED")); [reflexivity|].
  rewrite snd_bind.
  destruct (snd (report_failures float_repr str_repr (extract_failures scan_data)))
    as [[|]|e]; reflexivity.
Qed.

(** A payload passes the two checks of [main] exactly when it is a
    dictionary whose [status] is the string [FINISHED]. *)
Lemma finished_payload (scan_data status : value) :
  get scan_data "status" PNone = Return status ->
  eq_str status "FINISHED" = true ->
  exists payload, scan_data = PDict payload
                  /\ lookup payload "status" = Some (PStr "FINISHED").
Proof.
  destruct scan_data as [ | | | | | |payload]; try discriminate.
  cbn [get]. intros [= <-] Hfin. exists payload. split; [reflexivity|].
  destruct (lookup payload "status") as [[ | | | |s| | ]|]; try discriminate.
  cbn [eq_str] in Hfin. apply String.eqb_eq in Hfin. now subst.
Qed.

Lemma finished_status (status : value) :
  eq_str status "FINISHED" = true <-> status = PStr "FINISHED".
Proof.
  split.
  - destruct status; try discriminate. cbn [eq_str].
    intros H. apply String.eqb_eq in H. now subst.
  - intros ->. reflexivity.
Qed.



(** With a payload loaded whose status is [FINISHED], the reporter's flag
    decides. *)
Lemma main_verdict (file_path : string) (payload : list (string * value)) :
  snd (load_scan_data read_file json_loads file_path) = Return (PDict payload) ->
  lookup payload "status" = Some (PStr "FINISHED") ->
  snd (main read_file json_loads float_repr str_repr file_path)
  = match snd (report_failures float_repr str_repr
                               (extract_failures (PDict payload))) with
    | Raise e => Raise e
    | Return any => Return (if any then 1%Z else 0%Z)
    end.
Proof.
  intros Hload Hstatus. rewrite main_result, Hload.
  assert (truthy (PDict payload) = true) as ->
      by (destruct payload; [discriminate Hstatus|reflexivity]).
  cbn [negb get]. rewrite Hstatus. reflexivity.
Qed.

(** Exit status 0: a [FINISHED] payload and a generator that ends without
    a record. *)
Lemma exit_status_0_iff (file_path : string) :
  let run := main read_file json_loads float_repr str_repr file_path in
  exit_status run = 0%Z <->
  exists payload,
    snd (load_scan_data read_file json_loads file_path) = Return (PDict payload)
    /\ lookup payload "status" = Some (PStr "FINISHED")
    /\ extract_failures (PDict payload) = ([], Return tt).
Proof.
  cbv zeta. split.
  - unfold exit_status. rewrite main_result.
    destruct (snd (load_scan_data read_file json_loads file_path))
      as [scan_data|e]; [|discriminate].
    destruct (negb (truthy scan_data)); [discriminate|].
    destruct (get scan_data "status" PNone) as [status|e] eqn:Hget; [|discriminate].
    destruct (eq_str status "FINISHED") eqn:Hfin; [|discriminate]. cbn [negb].
    destruct (finished_payload _ _ Hget Hfin) as (payload & -> & Hstatus).
    destruct (snd (report_failures float_repr str_repr
                                   (extract_failures (PDict payload))))
      as [[|]|e] eqn:Hreport; try discriminate.
    intros _. exists payload. repeat split; auto.
    apply report_failures_returns in Hreport as (Hended & Hnone).
    destruct (extract_failures (PDict payload)) as [records ended].
    cbn [fst snd] in *. subst ended. destruct records; [reflexivity|discriminate].
  - intros (payload & Hload & Hstatus & Hextract). unfold exit_status.
    rewrite (main_verdict _ _ Hload Hstatus), Hextract, report_failures_nothing.
    reflexivity.
Qed.




End ExitStatus.

(** The end-to-end scenario of the specification: one failed check with an
    identifier and a criticality gives one line and exit status 1. *)
Definition cid1_payload : Py.value :=
  Py.PDict
    [ ("status", Py.PStr "FINISHED");
      ("result",
       Py.PList
         [Py.PDict [("results",
                     Py.PDict [("failedChecks", Py.PList [Py.PDict cid1_check])])]]) ].

Example main_one_failed_check :
  ResultParser.main (fun _ => ResultParser.Content "{...}")
                    (fun _ => Some cid1_payload)
                    (fun _ => "") (fun s => s) "results.json"
  = ([ (ResultParser.Stdout,
        "::error::File Name=None, Qualys CID=CID-1, Control Name=None, Criticality=HIGH, Remediation=None");
       (ResultParser.Stderr, String "010" "Failures were detected.") ],
     Py.Return 1%Z).
Proof. reflexivity. Qed.

(** A payload with nothing to report: exit status 0. *)
Example main_nothing_to_report :
  ResultParser.main (fun _ => ResultParser.Content "{...}")
                    (fun _ => Some (Py.PDict [("status", Py.PStr "FINISHED");
                                              ("result", Py.PList [])]))
                    (fun _ => "") (fun s => s) "results.json"
  = ([(ResultParser.Stdout, "Success: No failed checks or parsing errors found.")],
     Py.Return 0%Z).
Proof. reflexivity. Qed.


(* ===================================================================== *)
(** * file_utils.py: names, extensions and the search                     *)
(* ===================================================================== *)

Section Names.
Import Py FileUtils.

Lemma append_empty_r (s : string) : s ++ "" = s.
Proof. induction s as [|c s IH]; cbn; [reflexivity|now rewrite IH]. Qed.

Lemma lower_append (a b : string) : lower (a ++ b) = lower a ++ lower b.
Proof. induction a as [|c a IH]; cbn; [reflexivity|now rewrite IH]. Qed.

(** [token] occurs in [s]. *)
Definition contains (token s : string) : Prop :=
  exists before after, s = before ++ token ++ after.

(** A literal matches at the start of [s] when, case set aside, [s] begins
    with it. *)
Lemma match_here_spec (literal s : string) :
  match_here literal s = true <-> exists rest, lower s = lower literal ++ rest.
Proof.
  revert s. induction literal as [|p literal IH]; intros s; cbn [match_here lower].
  - split; [intros _; now exists (lower s)|reflexivity].
  - destruct s as [|c s]; cbn [lower].
    + split; [discriminate|intros (rest & H); discriminate H].
    + rewrite andb_true_iff, Ascii.eqb_eq, IH. cbn [append]. split.
      * intros (-> & rest & ->). now exists rest.
      * intros (rest & [= -> ->]). split; [reflexivity|now exists rest].
Qed.

(** The search succeeds exactly when one of the alternatives occurs in
    [s], case set aside. *)
Lemma search_spec (alternatives : list string) (s : string) :
  search alternatives s = true <->
  exists alt, In alt alternatives /\ contains (lower alt) (lower s).
Proof.
  unfold contains. induction s as [|c s IH]; cbn [search lower].
  - rewrite orb_false_r, existsb_exists. split.
    + intros (alt & Hin & Hm). apply match_here_spec in Hm as (rest & Hm).
      exists alt. split; [exact Hin|]. now exists "", rest.
    + intros (alt & Hin & before & after & H). exists alt. split; [exact Hin|].
      apply match_here_spec. destruct before; [|discriminate H].
      now exists after.
  - rewrite orb_true_iff, existsb_exists, IH. split.
    + intros [(alt & Hin & Hm)|(alt & Hin & before & after & H)].
      * apply match_here_spec in Hm as (rest & Hm). cbn [lower] in Hm.
        exists alt. split; [exact Hin|]. now exists "", rest.
      * exists alt. split; [exact Hin|].
        exists (String (lower_char c) before), after. cbn [append]. now rewrite H.
    + intros (alt & Hin & before & after & H). destruct before as [|x before].
      * left. exists alt. split; [exact Hin|]. apply match_here_spec.
        cbn [lower]. now exists after.
      * right. cbn [append] in H. injection H as _ H.
        exists alt. split; [exact Hin|]. now exists before, after.
Qed.

Lemma tokens_lower_case : Forall (fun token => lower token = token) IAC_TOKENS.
Proof. repeat constructor. Qed.

(** [is_likely_iac_file]: the name holds one of the tokens, in any case. *)
Lemma is_likely_iac_file_spec (file : path) :
  is_likely_iac_file file = true <->
  exists token, In token IAC_TOKENS /\ contains token (lower (name file)).
Proof.
  unfold is_likely_iac_file. rewrite search_spec.
  pose proof tokens_lower_case as Hlow. rewrite Forall_forall in Hlow.
  split; intros (token & Hin & H); exists token; (split; [exact Hin|]).
  - now rewrite <- (Hlow _ Hin).
  - now rewrite (Hlow _ Hin).
Qed.

(** The extension test: the lower-cased suffix is one of the five. *)
Lemma has_supported_extension_spec (file : path) :
  has_supported_extension file = true <->
  In (lower (suffix file)) SUPPORTED_EXTENSIONS.
Proof.
  unfold has_supported_extension. rewrite existsb_exists. split.
  - intros (ext & Hin & Heq). apply String.eqb_eq in Heq. now rewrite Heq.
  - intros Hin. exists (lower (suffix file)). split; [exact Hin|apply String.eqb_refl].
Qed.

Lemma substring_all (s : string) : substring 0 (String.length s) s = s.
Proof. induction s as [|c s IH]; cbn; [reflexivity|now rewrite IH]. Qed.

(** [s[i:]] is an end of [s]. *)
Lemma substring_tail (i : nat) (s : string) :
  exists stem, s = stem ++ substring i (String.length s - i) s.
Proof.
  revert i. induction s as [|c s IH]; intros i.
  - exists "". destruct i; reflexivity.
  - destruct i as [|i].
    + exists "". rewrite Nat.sub_0_r, substring_all. reflexivity.
    + destruct (IH i) as (stem & Hstem). exists (String c stem).
      cbn [String.length substring append Nat.sub]. now rewrite <- Hstem.
Qed.

(** The suffix is an end of the name. *)
Lemma suffix_tail (file : path) :
  exists stem, name file = stem ++ suffix file.
Proof.
  unfold suffix. destruct (rfind_dot (name file)) as [i|].
  - destruct ((0 <? i) && (i <? String.length (name file) - 1))%nat.
    + apply substring_tail.
    + exists (name file). now rewrite append_empty_r.
  - exists (name file). now rewrite append_empty_r.
Qed.

(** A name with the extension [.template], in any case, holds the token
    [template]. *)
Lemma template_suffix_likely (file : path) :
  lower (suffix file) = ".template" -> is_likely_iac_file file = true.
Proof.
  intros Hsfx. apply is_likely_iac_file_spec. exists "template". split.
  - cbn. auto.
  - destruct (suffix_tail file) as (stem & Hname).
    exists (lower stem ++ "."), "".
    rewrite Hname, lower_append, Hsfx, append_assoc. reflexivity.
Qed.

End Names.

(* ===================================================================== *)
(** * file_utils.py: the walk and the selection                           *)
(* ===================================================================== *)

Section Walk.
Import Py FileUtils.

(** [below root rel n]: following the components of the non-empty relative
    path [rel] from the directory [root] leads to the node [n]. *)
Inductive below : node -> path -> node -> Prop :=
| below_entry (entries : list (string * node)) (nm : string) (child : node) :
    In (nm, child) entries -> below (Dir entries) [nm] child
| below_deeper (entries : list (string * node)) (nm : string) (child : node)
               (rel : path) (n : node) :
    In (nm, child) entries -> below child rel n ->
    below (Dir entries) (nm :: rel) n.

(** Induction on a tree, with the hypothesis for every entry of a
    directory. *)
Fixpoint node_tree_ind (P : node -> Prop)
         (HFile : forall content, P (File content))
         (HOther : P Other)
         (HDir : forall entries, Forall (fun entry => P (snd entry)) entries ->
                                 P (Dir entries))
         (n : node) : P n :=
  match n with
  | File content => HFile content
  | Other => HOther
  | Dir entries =>
      HDir entries
           ((fix all (l : list (string * node)) : Forall (fun entry => P (snd entry)) l :=
               match l with
               | [] => Forall_nil _
               | entry :: l' =>
                   Forall_cons entry
                               (match entry return P (snd entry) with
                                | (_, child) => node_tree_ind P HFile HOther HDir child
                                end)
                               (all l')
               end) entries)
  end.

Lemma below_snoc (root : node) (rel : path) (entries : list (string * node))
      (nm : string) (n : node) :
  below root rel (Dir entries) -> In (nm, n) entries ->
  below root (rel ++ [nm])%list n.
Proof.
  intros Hbelow Hin. remember (Dir entries) as d eqn:Hd.
  induction Hbelow as [es nm' child Hc|es nm' child rel' n' Hc Hb IH]; subst.
  - cbn. eapply below_deeper; [exact Hc|]. now apply below_entry.
  - cbn. eapply below_deeper; [exact Hc|]. now apply IH.
Qed.

(** The last step of a path below a directory starts in a directory. *)
Lemma below_last (root : node) (rel : path) (n : node) :
  below root rel n ->
  (exists entries nm, root = Dir entries /\ rel = [nm] /\ In (nm, n) entries)
  \/ (exists rel' entries nm,
         rel = (rel' ++ [nm])%list /\ below root rel' (Dir entries) /\ In (nm, n) entries).
Proof.
  induction 1 as [es nm child Hc|es nm child rel n Hc Hb IH].
  - left. now exists es, nm.
  - right. destruct IH as [(es' & nm' & -> & -> & Hin)
                          |(rel' & es' & nm' & -> & Hb' & Hin)].
    + exists [nm], es', nm'. repeat split; [|exact Hin]. now apply below_entry.
    + exists (nm :: rel'), es', nm'. repeat split; [|exact Hin].
      eapply below_deeper; eassumption.
Qed.

(** The directories of the walk: the root, and the directories below it. *)
Lemma directories_spec (root : node) :
  forall (here p : path) (entries : list (string * node)),
    In (p, entries) (directories here root) <->
    (p = here /\ root = Dir entries)
    \/ (exists rel, p = (here ++ rel)%list /\ below root rel (Dir entries)).
Proof.
  induction root as [content| |es IH] using node_tree_ind;
    intros here p entries; cbn [directories].
  - split; [contradiction|]. intros [(_ & H)|(rel & _ & H)]; [discriminate|inversion H].
  - split; [contradiction|]. intros [(_ & H)|(rel & _ & H)]; [discriminate|inversion H].
  - rewrite Forall_forall in IH. cbn [In]. rewrite in_flat_map. split.
    + intros [[= <- <-]|((nm & child) & Hin & Hd)]; [now left|right].
      apply (IH _ Hin) in Hd. cbn [snd] in Hd.
      destruct Hd as [(-> & ->)|(rel & -> & Hb)].
      * exists [nm]. split; [reflexivity|now apply below_entry].
      * exists (nm :: rel). split; [now rewrite <- app_assoc|].
        eapply below_deeper; eassumption.
    + intros [(-> & [= ->])|(rel & -> & Hb)]; [now left|right].
      inversion Hb as [es' nm child Hin|es' nm child rel' n Hin Hb']; subst.
      * exists (nm, Dir entries). split; [exact Hin|].
        apply (IH _ Hin). now left.
      * exists (nm, child). split; [exact Hin|].
        apply (IH _ Hin). right. exists rel'. split; [|exact Hb'].
        now rewrite <- app_assoc.
Qed.

(** [rglob("*")] lists the nodes below the root, each under its path. *)
Lemma rglob_spec (root_dir : path) (root : node) (p : path) (n : node) :
  In (p, n) (rglob root_dir root) <->
  exists rel, p = (root_dir ++ rel)%list /\ below root rel n.
Proof.
  unfold rglob. rewrite in_flat_map. split.
  - intros ((here & entries) & Hd & Hin). apply in_map_iff in Hin
      as ((nm & child) & [= <- <-] & Hin).
    apply directories_spec in Hd as [(-> & ->)|(rel & -> & Hb)].
    + exists [nm]. split; [reflexivity|now apply below_entry].
    + exists (rel ++ [nm])%list. split; [now rewrite app_assoc|].
      eapply below_snoc; eassumption.
  - intros (rel & -> & Hb).
    apply below_last in Hb as [(entries & nm & -> & -> & Hin)
                              |(rel' & entries & nm & -> & Hb & Hin)].
    + exists (root_dir, entries). split; [apply directories_spec; now left|].
      apply in_map_iff. now exists (nm, n).
    + exists ((root_dir ++ rel')%list, entries). split.
      * apply directories_spec. right. now exists rel'.
      * apply in_map_iff. exists (nm, n). split; [|exact Hin].
        cbn [fst snd]. now rewrite app_assoc.
Qed.

(** What the specification asks of a selected file: a supported extension,
    case set aside, and a name that holds one of the tokens, case set
    aside. *)
Definition selected (file : path) : Prop :=
  In (lower (suffix file)) SUPPORTED_EXTENSIONS
  /\ exists token, In token IAC_TOKENS /\ contains token (lower (name file)).

(** The files [find_iac_templates] returns for an existing directory. *)
Definition found_in (root_dir : path) (entries : list (string * node)) : list path :=
  map fst
      (filter (fun candidate =>
                 let '(file, n) := candidate in
                 is_file n && has_supported_extension file && is_likely_iac_file file)
              (rglob root_dir (Dir entries))).

Lemma find_iac_templates_dir (root_dir : path) (entries : list (string * node)) :
  find_iac_templates root_dir (Some (Dir entries)) = Return (found_in root_dir entries).
Proof. reflexivity. Qed.

Lemma found_in_spec (root_dir : path) (entries : list (string * node)) (file : path) :
  In file (found_in root_dir entries) <->
  exists rel content,
    file = (root_dir ++ rel)%list
    /\ below (Dir entries) rel (File content)
    /\ selected file.
Proof.
  unfold found_in, selected. rewrite in_map_iff. split.
  - intros ((file' & n) & [= ->] & Hin). apply filter_In in Hin as (Hin & Hsel).
    apply rglob_spec in Hin as (rel & -> & Hb).
    rewrite !andb_true_iff in Hsel. destruct Hsel as ((Hfile & Hext) & Hname).
    destruct n as [content| |]; try discriminate Hfile.
    exists rel, content. repeat split; [exact Hb| |].
    + now apply has_supported_extension_spec.
    + now apply is_likely_iac_file_spec.
  - intros (rel & content & -> & Hb & Hext & Hname).
    exists ((root_dir ++ rel)%list, File content). split; [reflexivity|].
    apply filter_In. split; [apply rglob_spec; now exists rel|].
    rewrite !andb_true_iff. repeat split.
    + now apply has_supported_extension_spec.
    + now apply is_likely_iac_file_spec.
Qed.









(** C10.  A regular file below an existing root whose extension is
    [.template], in any case, is always among the files
    [find_iac_templates] returns, whatever the rest of its name: the
    pattern is searched in the whole name, and the extension holds the
    token [template]. *)
Theorem template_extension_always_selected
        (root_dir : path) (entries : list (string * node))
        (rel : path) (content : string) :
  below (Dir entries) rel (File content) ->
  lower (suffix (root_dir ++ rel)%list) = ".template" ->
  is_likely_iac_file (root_dir ++ rel)%list = true
  /\ exists found,
      find_iac_templates root_dir (Some (Dir entries)) = Return found
      /\ In (root_dir ++ rel)%list found.
Proof.
  intros Hb Hsfx. split; [now apply template_suffix_likely|].
  exists (found_in root_dir entries). split; [apply find_iac_templates_dir|].
  apply found_in_spec. exists rel, content. repeat split; [exact Hb| |].
  - rewrite Hsfx. cbn. auto 6.
  - apply is_likely_iac_file_spec. now apply template_suffix_likely.
Qed.

End Walk.

(** The tree of the specification's scenario, with a subdirectory added. *)
Definition sample_tree : list (string * FileUtils.node) :=
  [ ("main.tf", FileUtils.File "resource {}");
    ("readme.md", FileUtils.File "docs");
    ("output.json", FileUtils.File "{}");
    ("nested", FileUtils.Dir [ ("Notes.TEMPLATE", FileUtils.File "t");
                               ("STACK.yaml.d", FileUtils.Dir []) ]) ].

(** Only [main.tf] and the [.TEMPLATE] file are selected: [readme.md] has
    no supported extension, the name of [output.json] holds no token. *)
Example find_iac_templates_sample :
  FileUtils.find_iac_templates ["repo"] (Some (FileUtils.Dir sample_tree))
  = Py.Return [ ["repo"; "main.tf"]; ["repo"; "nested"; "Notes.TEMPLATE"] ].
Proof. reflexivity. Qed.


Lemma template_extension_always_selected_example :
  below (FileUtils.Dir sample_tree) ["nested"; "Notes.TEMPLATE"] (FileUtils.File "t")
  /\ FileUtils.lower (FileUtils.suffix ["repo"; "nested"; "Notes.TEMPLATE"]) = ".template"
  /\ FileUtils.is_likely_iac_file ["repo"; "nested"; "Notes.TEMPLATE"] = true
  /\ exists found,
      FileUtils.find_iac_templates ["repo"] (Some (FileUtils.Dir sample_tree))
      = Py.Return found
      /\ In ["repo"; "nested"; "Notes.TEMPLATE"] found.
Proof.
  assert (below (FileUtils.Dir sample_tree) ["nested"; "Notes.TEMPLATE"]
                (FileUtils.File "t")) as Hb.
  { eapply below_deeper; [right; right; right; left; reflexivity|].
    apply below_entry. left. reflexivity. }
  split; [exact Hb|]. split; [reflexivity|].
  exact (template_extension_always_selected
           ["repo"] sample_tree ["nested"; "Notes.TEMPLATE"] "t" Hb eq_refl).
Defined.

(* ===================================================================== *)
(** * file_utils.py: the archive                                          *)
(* ===================================================================== *)

Section ArchiveNames.
Import Py FileUtils.

Variable read_bytes : path -> option string.
Variable not_in_subpath : path -> path -> string.










End ArchiveNames.

(** Two files under the base directory and one outside it: the two are
    stored under their relative paths, then [relative_to] refuses the
    third. *)
Example create_zip_archive_sample :
  FileUtils.create_zip_archive
    (fun _ => Some "bytes") (fun _ _ => "not in the subpath")
    [".iac-scan.zip"]
    [ ["repo"; "main.tf"]; ["repo"; "nested"; "stack.yml"]; ["elsewhere"; "main.tf"] ]
    ["repo"]
  = ([ {| FileUtils.arcname := ["main.tf"]; FileUtils.data := "bytes" |};
       {| FileUtils.arcname := ["nested"; "stack.yml"]; FileUtils.data := "bytes" |} ],
     Py.Raise (Py.ValueError "not in the subpath")).
Proof. reflexivity. Qed.


(* ===================================================================== *)
(** * qualys_client.py: the polling loop                                  *)
(* ===================================================================== *)

Section Polling.
Import Py QualysClient.
Local Open Scope Z_scope.

Variable srv : service.
Variable scan_uuid : string.
Variables interval timeout start_time : Z.

(** The world after one more GET, and after the sleep that follows it. *)
Definition after_get (w : world) : world :=
  {| now := now w + Z.of_nat (latency (srv scan_uuid (List.length (requests w))));
     requests := now w :: requests w |}.

Definition after_round (w : world) : world :=
  {| now := now (after_get w) + interval; requests := requests (after_get w) |}.

(** ** One iteration *)

Lemma poll_loop_timed_out (fuel : nat) (w : world) :
  timeout <= now w - start_time ->
  poll_loop (S fuel) srv scan_uuid interval timeout start_time w
  = Some (w, Raise (TimeoutError (timeout_message timeout))).
Proof.
  intros H. cbn [poll_loop]. apply Z.ltb_ge in H. now rewrite H.
Qed.

Lemma non_terminal_status (r : reply) :
  non_terminal r ->
  exists data status,
    answer r = Json data
    /\ get data "status" (PStr "UNKNOWN") = Return status
    /\ eq_str status "FINISHED" = false.
Proof.
  intros (d & Hanswer & Hstatus). exists (PDict d). cbn [get].
  destruct (lookup d "status") as [status|] eqn:Hlookup.
  - exists status. repeat split; [exact Hanswer|].
    destruct (eq_str status "FINISHED") eqn:Hfin; [|reflexivity].
    apply finished_status in Hfin. congruence.
  - exists (PStr "UNKNOWN"). now repeat split.
Qed.

Lemma poll_loop_finished (fuel : nat) (w : world) (data : value) :
  now w - start_time < timeout ->
  terminal (srv scan_uuid (List.length (requests w))) data ->
  poll_loop (S fuel) srv scan_uuid interval timeout start_time w
  = Some (after_get w, Return data).
Proof.
  intros Hin (d & -> & Hanswer & Hstatus). cbn [poll_loop].
  apply Z.ltb_lt in Hin. rewrite Hin. unfold session_get.
  rewrite Hanswer. cbn [get]. rewrite Hstatus. reflexivity.
Qed.

Lemma poll_loop_again (fuel : nat) (w : world) :
  now w - start_time < timeout ->
  non_terminal (srv scan_uuid (List.length (requests w))) ->
  0 <= interval ->
  poll_loop (S fuel) srv scan_uuid interval timeout start_time w
  = poll_loop fuel srv scan_uuid interval timeout start_time (after_round w).
Proof.
  intros Hin Hnt Hint. cbn [poll_loop].
  apply Z.ltb_lt in Hin. rewrite Hin. unfold session_get.
  apply non_terminal_status in Hnt as (data & status & -> & -> & ->).
  unfold sleep. apply Z.ltb_ge in Hint. rewrite Hint. reflexivity.
Qed.

Lemma poll_loop_sleep_refused (fuel : nat) (w : world) :
  now w - start_time < timeout ->
  non_terminal (srv scan_uuid (List.length (requests w))) ->
  interval < 0 ->
  poll_loop (S fuel) srv scan_uuid interval timeout start_time w
  = Some (after_get w, Raise (ValueError "sleep length must be non-negative")).
Proof.
  intros Hin Hnt Hint. cbn [poll_loop].
  apply Z.ltb_lt in Hin. rewrite Hin. unfold session_get.
  apply non_terminal_status in Hnt as (data & status & -> & -> & ->).
  unfold sleep. apply Z.ltb_lt in Hint. rewrite Hint. reflexivity.
Qed.

(** ** Fuel *)

(** A run that ends within some fuel ends the same way with more. *)
Lemma poll_loop_more_fuel (fuel : nat) :
  forall (fuel' : nat) (w : world) (outcome : world * result value),
    poll_loop fuel srv scan_uuid interval timeout start_time w = Some outcome ->
    (fuel <= fuel')%nat ->
    poll_loop fuel' srv scan_uuid interval timeout start_time w = Some outcome.
Proof.
  induction fuel as [|fuel IH]; intros fuel' w outcome Hrun Hle; [discriminate Hrun|].
  destruct fuel' as [|fuel']; [lia|]. cbn [poll_loop] in *.
  destruct (now w - start_time <? timeout); [|exact Hrun].
  destruct (session_get srv scan_uuid w) as [w1 [data|msg]]; [|exact Hrun].
  destruct (get data "status" (PStr "UNKNOWN")) as [status|e]; [|exact Hrun].
  destruct (eq_str status "FINISHED"); [exact Hrun|].
  destruct (sleep interval w1) as [w2 [[]|e]]; [|exact Hrun].
  apply IH; [exact Hrun|lia].
Qed.
(** ** Runs that end with the terminal payload *)

Lemma elapsed_after_mono (n m : nat) :
  0 <= interval ->
  elapsed_after srv scan_uuid interval n
  <= elapsed_after srv scan_uuid interval (n + m)%nat.
Proof.
  intros Hint. induction m as [|m IH].
  - rewrite Nat.add_0_r. lia.
  - rewrite Nat.add_succ_r. cbn [elapsed_after]. lia.
Qed.

(** From a world reached after [k] rounds, [m] more non-terminal replies
    and then a terminal one: [m + 1] more GETs, and the payload. *)
Lemma poll_loop_rounds (m : nat) :
  forall (k fuel : nat) (w : world) (data : value),
    List.length (requests w) = k ->
    now w - start_time = elapsed_after srv scan_uuid interval k ->
    0 <= interval ->
    (forall j, (k <= j < k + m)%nat -> non_terminal (srv scan_uuid j)) ->
    terminal (srv scan_uuid (k + m)%nat) data ->
    elapsed_after srv scan_uuid interval (k + m)%nat < timeout ->
    (m < fuel)%nat ->
    exists w',
      poll_loop fuel srv scan_uuid interval timeout start_time w
      = Some (w', Return data)
      /\ List.length (requests w') = (k + m + 1)%nat.
Proof.
  induction m as [|m IH]; intros k fuel w data Hlen Hnow Hint Hnt Hterm Hbudget Hfuel;
    (destruct fuel as [|fuel]; [lia|]).
  - rewrite Nat.add_0_r in *. exists (after_get w). split.
    + apply poll_loop_finished; [lia|now rewrite Hlen].
    + cbn. lia.
  - pose proof (elapsed_after_mono k (S m) Hint) as Hmono.
    rewrite poll_loop_again; [|lia|rewrite Hlen; apply Hnt; lia|exact Hint].
    destruct (IH (S k) fuel (after_round w) data) as (w' & Hrun & Hcount).
    + cbn. lia.
    + cbn [after_round after_get now elapsed_after]. rewrite Hlen. lia.
    + exact Hint.
    + intros j Hj. apply Hnt. lia.
    + now replace (S k + m)%nat with (k + S m)%nat by lia.
    + now replace (S k + m)%nat with (k + S m)%nat by lia.
    + lia.
    + exists w'. split; [exact Hrun|lia].
Qed.

(** ** Runs that time out *)


(** ** An interval of zero *)

(** With interval 0, replies that take no time and never turn terminal, the
    clock stands still and the loop does not end. *)
Lemma poll_loop_spins (fuel : nat) :
  forall w : world,
    interval = 0 ->
    (forall k, non_terminal (srv scan_uuid k) /\ latency (srv scan_uuid k) = 0%nat) ->
    now w - start_time < timeout ->
    poll_loop fuel srv scan_uuid interval timeout start_time w = None.
Proof.
  induction fuel as [|fuel IH]; intros w Hint Hsrv Hin; [reflexivity|].
  rewrite poll_loop_again; [|exact Hin|apply Hsrv|lia].
  apply IH; [exact Hint|exact Hsrv|].
  cbn [after_round after_get now]. rewrite (proj2 (Hsrv _)). lia.
Qed.

End Polling.

Section PollingClaims.
Import Py QualysClient.
Local Open Scope Z_scope.

(** C2.  When the service answers the first [N] GETs for the scan with a
    status other than [FINISHED] (another string, a value that is no
    string, or no status at all) and the next one with [FINISHED], and the
    [N] rounds of GET and sleep end before the timeout,
    [poll_scan_results] makes exactly [N + 1] GETs and returns the payload
    of the last reply. *)
Theorem poll_scan_results_returns_terminal_payload
        (srv : service) (scan_uuid : string) (interval timeout t0 : Z)
        (N : nat) (data : value) (fuel : nat) :
  0 <= interval ->
  (forall k, (k < N)%nat -> non_terminal (srv scan_uuid k)) ->
  terminal (srv scan_uuid N) data ->
  elapsed_after srv scan_uuid interval N < timeout ->
  (N < fuel)%nat ->
  exists w',
    poll_scan_results fuel srv scan_uuid interval timeout (fresh t0)
    = Some (w', Return data)
    /\ List.length (requests w') = (N + 1)%nat.
Proof.
  intros Hint Hnt Hterm Hbudget Hfuel. unfold poll_scan_results.
  apply (poll_loop_rounds srv scan_uuid interval timeout (now (fresh t0)) N 0%nat);
    cbn; auto; try lia.
  intros j Hj. apply Hnt. lia.
Qed.


(** C8 (as amended).  [poll_scan_results] does not look at the sign of the
    interval; it only hands it to [time.sleep] after a reply that is not
    terminal.  With an interval of 0 or less and a positive timeout: a
    first reply of [FINISHED] is returned after a single GET; with a
    negative interval a first reply that is not terminal makes [time.sleep]
    raise [ValueError] after that single GET; with interval 0 the loop
    polls again at once, and when the replies take no time and never turn
    terminal it does not end. *)
Theorem poll_scan_results_interval_unchecked
        (srv : service) (scan_uuid : string) (interval timeout t0 : Z) :
  interval <= 0 ->
  0 < timeout ->
  (forall data fuel,
      terminal (srv scan_uuid 0%nat) data ->
      poll_scan_results (S fuel) srv scan_uuid interval timeout (fresh t0)
      = Some ({| now := t0 + Z.of_nat (latency (srv scan_uuid 0%nat));
                 requests := [t0] |}, Return data))
  /\ (forall fuel,
         interval < 0 ->
         non_terminal (srv scan_uuid 0%nat) ->
         poll_scan_results (S fuel) srv scan_uuid interval timeout (fresh t0)
         = Some ({| now := t0 + Z.of_nat (latency (srv scan_uuid 0%nat));
                    requests := [t0] |},
                 Raise (ValueError "sleep length must be non-negative")))
  /\ (forall fuel,
         interval = 0 ->
         (forall k, non_terminal (srv scan_uuid k)
                    /\ latency (srv scan_uuid k) = 0%nat) ->
         poll_scan_results fuel srv scan_uuid interval timeout (fresh t0) = None).
Proof.
  intros Hint Htimeout. unfold poll_scan_results. cbn [fresh now].
  repeat split.
  - intros data fuel Hterm.
    rewrite (poll_loop_finished srv scan_uuid interval timeout t0 fuel (fresh t0) data);
      [reflexivity|cbn; lia|exact Hterm].
  - intros fuel Hneg Hnt.
    rewrite (poll_loop_sleep_refused srv scan_uuid interval timeout t0 fuel (fresh t0));
      [reflexivity|cbn; lia|exact Hnt|exact Hneg].
  - intros fuel Hzero Hsrv.
    apply poll_loop_spins; [exact Hzero|exact Hsrv|cbn; lia].
Qed.

End PollingClaims.

(** ** Services to run the loop against *)

Definition finished_payload_sample : Py.value :=
  Py.PDict [("status", Py.PStr "FINISHED"); ("result", Py.PList [])].

(** No status, then an unknown status, then a status that is no string,
    then [FINISHED]; every reply takes a second. *)
Definition slow_service : QualysClient.service :=
  fun _ k =>
    {| QualysClient.latency := 1;
       QualysClient.answer :=
         QualysClient.Json
           match k with
           | 0 => Py.PDict [("scanUuid", Py.PStr "scan-1")]
           | 1 => Py.PDict [("status", Py.PStr "SOMETHING_NEW")]
           | 2 => Py.PDict [("status", Py.PInt 3)]
           | _ => finished_payload_sample
           end |}.

(** A scan that is finished at the first GET. *)
Definition finished_service : QualysClient.service :=
  fun _ _ => {| QualysClient.latency := 0;
                QualysClient.answer := QualysClient.Json finished_payload_sample |}.

(** A scan that stays in progress, every reply taking no time. *)
Definition running_service : QualysClient.service :=
  fun _ _ => {| QualysClient.latency := 0;
                QualysClient.answer :=
                  QualysClient.Json (Py.PDict [("status", Py.PStr "IN_PROGRESS")]) |}.

Lemma running_service_non_terminal (k : nat) :
  QualysClient.non_terminal (running_service "scan-1" k).
Proof. eexists. split; [reflexivity|discriminate]. Qed.

Lemma finished_service_terminal :
  QualysClient.terminal (finished_service "scan-1" 0) finished_payload_sample.
Proof. eexists. repeat split. Qed.

(** Three replies that are not terminal, then the terminal one: four GETs,
    sent at seconds 0, 6, 12 and 18 of a 60 second budget. *)
Lemma poll_scan_results_four_gets :
  exists w',
    QualysClient.poll_scan_results 10 slow_service "scan-1" 5 60 (QualysClient.fresh 0)
    = Some (w', Py.Return finished_payload_sample)
    /\ List.length (QualysClient.requests w') = 4.
Proof.
  apply (poll_scan_results_returns_terminal_payload
           slow_service "scan-1" 5 60 0 3 finished_payload_sample 10).
  - lia.
  - intros [|[|[|k]]] Hk; try lia; eexists; (split; [reflexivity|discriminate]).
  - eexists. repeat split.
  - cbn. lia.
  - lia.
Defined.

Example poll_scan_results_four_gets_run :
  QualysClient.poll_scan_results 10 slow_service "scan-1" 5 60 (QualysClient.fresh 0)
  = Some ({| QualysClient.now := 19; QualysClient.requests := [18; 12; 6; 0]%Z |},
          Py.Return finished_payload_sample).
Proof. reflexivity. Qed.


Example poll_scan_results_times_out_run :
  QualysClient.poll_scan_results 5 running_service "scan-1" 20 60 (QualysClient.fresh 0)
  = Some ({| QualysClient.now := 60; QualysClient.requests := [40; 20; 0]%Z |},
          Py.Raise (Py.TimeoutError
                      "Scan did not finish within the 60s timeout period.")).
Proof. reflexivity. Qed.

(** C8 (as stated) fails: with an interval of 0, and with an interval of
    -5, a scan that is finished at the first GET is returned; no
    configuration error is raised. *)
Lemma poll_scan_results_accepts_non_positive_interval :
  (0 <= 0)%Z /\ (-5 <= 0)%Z
  /\ QualysClient.poll_scan_results 3 finished_service "scan-1" 0 60
                                    (QualysClient.fresh 0)
     = Some ({| QualysClient.now := 0; QualysClient.requests := [0%Z] |},
             Py.Return finished_payload_sample)
  /\ QualysClient.poll_scan_results 3 finished_service "scan-1" (-5) 60
                                    (QualysClient.fresh 0)
     = Some ({| QualysClient.now := 0; QualysClient.requests := [0%Z] |},
             Py.Return finished_payload_sample).
Proof. repeat split; lia. Qed.

(** With interval 0: a scan that is finished is returned at the first GET;
    a scan that stays in progress, its replies taking no time, is polled
    without end. *)
Lemma poll_scan_results_interval_unchecked_example :
  QualysClient.poll_scan_results 1 finished_service "scan-1" 0 60 (QualysClient.fresh 0)
  = Some ({| QualysClient.now := 0; QualysClient.requests := [0%Z] |},
          Py.Return finished_payload_sample)
  /\ forall fuel,
      QualysClient.poll_scan_results fuel running_service "scan-1" 0 60
                                     (QualysClient.fresh 0) = None.
Proof.
  split.
  - apply (proj1 (poll_scan_results_interval_unchecked
                    finished_service "scan-1" 0 60 0 ltac:(lia) ltac:(lia))
                 finished_payload_sample 0%nat finished_service_terminal).
  - intros fuel.
    apply (proj2 (proj2 (poll_scan_results_interval_unchecked
                           running_service "scan-1" 0 60 0 ltac:(lia) ltac:(lia)))
                 fuel eq_refl).
    intros k. split; [apply running_service_non_terminal|reflexivity].
Defined.

(* ===================================================================== *)
(** * main.py: the temporary archive is always removed                    *)
(* ===================================================================== *)

Section Cleanup.
Import Py Main.

Variable at_root : option FileUtils.node.
Variable read_bytes : FileUtils.path -> option string.
Variable not_in_subpath : FileUtils.path -> FileUtils.path -> string.
Variable timestamp : string.
Variable zip_opens : result unit.
Variable QualysApiClient : string -> string -> string -> option string -> result client.
Variable results_opens : result unit.
Variable json_dump : value -> result unit.

(** The files on disk when the run starts. *)
Variable disk : list FileUtils.path.

Let zip : FileUtils.path := [zip_file_name timestamp].

(** ** A small program logic for statements

    [holds P m Q]: started in a state that satisfies [P], the statement [m]
    ends, by returning or by raising, in a state that satisfies [Q]. *)
Definition holds {A} (P : state -> Prop) (m : stmt A) (Q : state -> Prop) : Prop :=
  forall s, P s -> Q (fst (m s)).

Lemma holds_call {A} (P : state -> Prop) (r : result A) : holds P (call r) P.
Proof. intros s Hs. exact Hs. Qed.

Lemma holds_throw {A} (P : state -> Prop) (e : exception) :
  holds P (@throw A e) P.
Proof. intros s Hs. exact Hs. Qed.

Lemma holds_seq {A B} (P R Q : state -> Prop) (m : stmt A) (k : A -> stmt B) :
  holds P m R -> (forall s, R s -> Q s) -> (forall a, holds R (k a) Q) ->
  holds P (seq m k) Q.
Proof.
  intros Hm HRQ Hk s Hs. unfold seq. specialize (Hm s Hs).
  destruct (m s) as [s1 [a|e]]; cbn [fst] in *.
  - now apply Hk.
  - now apply HRQ.
Qed.

Lemma holds_try_except {A} (P Q : state -> Prop) (m : stmt A)
      (handler : exception -> option (stmt A)) :
  holds P m Q -> (forall e h, handler e = Some h -> holds Q h Q) ->
  holds P (try_except m handler) Q.
Proof.
  intros Hm Hh s Hs. unfold try_except. specialize (Hm s Hs).
  destruct (m s) as [s1 [a|e]]; cbn [fst] in *; [exact Hm|].
  destruct (handler e) as [h|] eqn:He; [|exact Hm].
  now apply (Hh e h He).
Qed.

Lemma holds_try_finally {A} (P R Q : state -> Prop) (m : stmt A) (final : stmt unit) :
  holds P m R -> holds R final Q -> holds P (try_finally m final) Q.
Proof.
  intros Hm Hf s Hs. unfold try_finally. specialize (Hm s Hs).
  destruct (m s) as [s1 r]; cbn [fst] in *. specialize (Hf s1 Hm).
  destruct (final s1) as [s2 [[]|e]]; exact Hf.
Qed.

(** ** The two facts the workflow maintains *)

(** Nothing was created yet: the variable is unset and the disk is as it
    was; or the variable names the archive of this run. *)
Definition untouched (s : state) : Prop :=
  zip_file_path s = None /\ files s = disk.

Definition assigned (s : state) : Prop :=
  zip_file_path s = Some zip.

Definition tracked (s : state) : Prop := untouched s \/ assigned s.

(** The archive is gone: the variable names it and no such file is on disk,
    or nothing was ever created. *)
Definition released (s : state) : Prop :=
  untouched s \/ (assigned s /\ ~ In zip (files s)).

Lemma holds_logging (P : state -> Prop) (ev : log_event) :
  (forall s, P s ->
             P {| files := files s; zip_file_path := zip_file_path s;
                  log := (log s ++ [ev])%list |}) ->
  holds P (logging ev) P.
Proof. intros H s Hs. now apply H. Qed.

Lemma logging_tracked (ev : log_event) : holds tracked (logging ev) tracked.
Proof. apply holds_logging. intros s [H|H]; [left|right]; exact H. Qed.

Lemma create_file_assigned (p : FileUtils.path) :
  holds assigned (create_file p) assigned.
Proof. intros s Hs. exact Hs. Qed.

Lemma assigned_tracked (s : state) : assigned s -> tracked s.
Proof. now right. Qed.

(** ** The parts of the workflow *)

(** One step of a sequence that runs with the archive named: the step
    keeps it named, and so does what follows. *)
Ltac named_step lemma :=
  apply (holds_seq assigned assigned);
  [apply lemma | first [apply assigned_tracked | auto] | intro].

Lemma create_zip_archive_assigned (output_path : FileUtils.path)
      (template_files : list FileUtils.path) (base_dir : FileUtils.path) :
  holds assigned
        (create_zip_archive read_bytes not_in_subpath zip_opens
                            output_path template_files base_dir)
        assigned.
Proof.
  unfold create_zip_archive.
  named_step @holds_call. named_step create_file_assigned. apply holds_call.
Qed.

Lemma save_sarif_results_assigned (c : client) (scan_uuid : value) :
  holds assigned (save_sarif_results c scan_uuid) assigned.
Proof.
  unfold save_sarif_results.
  named_step @holds_call. apply create_file_assigned.
Qed.

Lemma save_results_assigned (results : value) :
  holds assigned (save_results results_opens json_dump results) assigned.
Proof.
  unfold save_results.
  named_step @holds_call. named_step create_file_assigned. apply holds_call.
Qed.

Lemma try_body_tracked (config : AppConfig) :
  holds tracked
        (try_body at_root read_bytes not_in_subpath timestamp zip_opens
                  QualysApiClient results_opens json_dump config)
        tracked.
Proof.
  unfold try_body.
  apply (holds_seq tracked tracked); [apply holds_call|auto|].
  intros [|file template_files]; [apply logging_tracked|].
  apply (holds_seq tracked assigned); [intros s _; reflexivity|apply assigned_tracked|].
  intros _.
  named_step create_zip_archive_assigned.
  named_step @holds_call. named_step @holds_call. named_step @holds_call.
  named_step save_sarif_results_assigned.
  intros s Hs. apply assigned_tracked. now apply save_results_assigned.
Qed.

Lemma handlers_tracked (e : exception) (h : stmt unit) :
  handlers e = Some h -> holds tracked h tracked.
Proof.
  unfold handlers. intros H.
  destruct (is_critical e); [|destruct (is_Exception e); [|discriminate]];
    injection H as <-;
    (apply (holds_seq tracked tracked);
     [apply logging_tracked|auto|intros _; apply holds_throw]).
Qed.

(** [os.remove] leaves no file under the path. *)
Lemma os_remove_gone (p : FileUtils.path) (s : state) :
  ~ In p (files (fst (os_remove p s))).
Proof.
  cbn. intros Hin. apply filter_In in Hin as (_ & Hne).
  unfold path_eqb in Hne. destruct (list_eq_dec string_dec p p); [discriminate|auto].
Qed.

Lemma path_exists_false (p : FileUtils.path) (s : state) :
  path_exists p s = false -> ~ In p (files s).
Proof.
  unfold path_exists. intros Hnone Hin.
  assert (existsb (path_eqb p) (files s) = true) as Hsome; [|congruence].
  apply existsb_exists. exists p. split; [exact Hin|].
  unfold path_eqb. destruct (list_eq_dec string_dec p p); [reflexivity|contradiction].
Qed.

(** The [finally] clause releases the archive. *)
Lemma cleanup_releases : holds tracked cleanup released.
Proof.
  intros s [Hs|Hs]; unfold cleanup.
  - destruct Hs as (Hnone & Hdisk). rewrite Hnone. now left.
  - red in Hs. rewrite Hs. destruct (path_exists zip s) eqn:Hexists.
    + right. split; [exact Hs|]. apply (os_remove_gone zip).
    + right. split; [exact Hs|]. now apply path_exists_false.
Qed.

(** The [finally] clause does not raise. *)
Lemma cleanup_returns (s : state) : snd (cleanup s) = Return tt.
Proof.
  unfold cleanup. destruct (zip_file_path s) as [p|]; [|reflexivity].
  destruct (path_exists p s); reflexivity.
Qed.

(** ** The ways the run can end *)

(** Returning, [sys.exit(1)] from one of the two [except] clauses, or an
    exception that is no [Exception] and passes both. *)
Definition exit_path (outcome : result unit) : Prop :=
  outcome = Return tt
  \/ outcome = Raise (SystemExit 1)
  \/ exists e, outcome = Raise e /\ is_Exception e = false.

Lemma try_except_exit_path (body : stmt unit) (s : state) :
  exit_path (snd (try_except body handlers s)).
Proof.
  unfold try_except, exit_path. destruct (body s) as [s1 [[]|e]]; [now left|].
  unfold handlers.
  destruct (is_critical e); [right; left; reflexivity|].
  destruct (is_Exception e) eqn:He; [right; left; reflexivity|].
  right; right. now exists e.
Qed.

Lemma try_finally_cleanup_outcome (body : stmt unit) (s : state) :
  snd (try_finally body cleanup s) = snd (body s).
Proof.
  unfold try_finally. destruct (body s) as [s1 r].
  pose proof (cleanup_returns s1) as Hc.
  destruct (cleanup s1) as [s2 rc]. cbn [snd] in *. now rewrite Hc.
Qed.

(** C9.  However the run ends (by returning, by [sys.exit(1)] from an
    [except] clause, or by an exception that no clause catches) the
    [finally] clause has run: either the workflow never got to name an
    archive and the disk is as it was, or the archive it named is not on
    disk.  So a run that starts without that file on disk ends without
    it. *)
Theorem run_scan_workflow_removes_archive (config : AppConfig) :
  let run := run_scan_workflow at_root read_bytes not_in_subpath timestamp
                               zip_opens QualysApiClient results_opens json_dump
                               config disk in
  exit_path (snd run)
  /\ ((zip_file_path (fst run) = None /\ files (fst run) = disk)
      \/ (zip_file_path (fst run) = Some [zip_file_name timestamp]
          /\ ~ In [zip_file_name timestamp] (files (fst run))))
  /\ (~ In [zip_file_name timestamp] disk ->
      ~ In [zip_file_name timestamp] (files (fst run))).
Proof.
  cbv zeta. unfold run_scan_workflow.
  set (init := {| files := disk; zip_file_path := None; log := [] |}).
  set (body := try_except _ handlers).
  assert (released (fst (try_finally body cleanup init))) as Hreleased.
  { apply (holds_try_finally tracked tracked released body cleanup);
      [|apply cleanup_releases|left; split; reflexivity].
    apply holds_try_except; [apply try_body_tracked|apply handlers_tracked]. }
  split; [|split].
  - rewrite try_finally_cleanup_outcome. apply try_except_exit_path.
  - exact Hreleased.
  - intros Hfresh. destruct Hreleased as [(_ & ->)|(_ & Hgone)]; assumption.
Qed.

End Cleanup.

(** ** Three runs, one per way of ending *)

Definition sample_config (interval : Z) : Main.AppConfig :=
  {| Main.iac_template_dir := ["repo"];
     Main.qualys_base_url := "https://qualysguard.example";
     Main.qualys_username := "user";
     Main.qualys_password := "secret";
     Main.qualys_custom_ca_bundle := None;
     Main.poll_interval := interval;
     Main.poll_timeout := 60 |}.

(** A client whose polling is the loop of [QualysClient] run against the
    given service ([KeyboardInterrupt] standing for a run cut short). *)
Definition client_of (srv : QualysClient.service) : Main.client :=
  {| Main.initiate_scan := fun _ _ => Py.Return (Py.PStr "scan-1");
     Main.poll_scan_results :=
       fun scan_uuid interval timeout =>
         match QualysClient.poll_scan_results
                 10 srv (Py.str (fun _ => "") (fun s => s) scan_uuid)
                 interval timeout (QualysClient.fresh 0) with
         | Some (_, outcome) => outcome
         | None => Py.Raise Py.KeyboardInterrupt
         end;
     Main.get_sarif_results := fun _ => Py.Return tt |}.

Definition sample_run (srv : QualysClient.service) (interval : Z)
  : Main.state * Py.result unit :=
  Main.run_scan_workflow
    (Some (FileUtils.Dir sample_tree)) (fun _ => Some "bytes")
    (fun _ _ => "not in the subpath") "20260101120000" (Py.Return tt)
    (fun _ _ _ _ => Py.Return (client_of srv)) (Py.Return tt) (fun _ => Py.Return tt)
    (sample_config interval) [["README.md"]].

(** The scan finishes: both result files are written, the archive is
    removed, the run returns. *)
Example run_finishes :
  sample_run finished_service 20
  = ({| Main.files := [["results.json"]; ["results.sarif"]; ["README.md"]];
        Main.zip_file_path := Some [".iac-scan-20260101120000.zip"];
        Main.log := [Main.CleaningUp [".iac-scan-20260101120000.zip"]] |},
     Py.Return tt).
Proof. reflexivity. Qed.

(** The scan stays in progress: the polling times out, the first [except]
    clause exits with 1, the archive is removed. *)
Example run_times_out :
  sample_run running_service 20
  = ({| Main.files := [["README.md"]];
        Main.zip_file_path := Some [".iac-scan-20260101120000.zip"];
        Main.log :=
          [ Main.CriticalError
              (Py.TimeoutError "Scan did not finish within the 60s timeout period.");
            Main.CleaningUp [".iac-scan-20260101120000.zip"] ] |},
     Py.Raise (Py.SystemExit 1)).
Proof. reflexivity. Qed.

(** The run is cut short while polling: no clause catches the exception,
    and the archive is removed all the same. *)
Example run_interrupted :
  sample_run running_service 0
  = ({| Main.files := [["README.md"]];
        Main.zip_file_path := Some [".iac-scan-20260101120000.zip"];
        Main.log := [Main.CleaningUp [".iac-scan-20260101120000.zip"]] |},
     Py.Raise Py.KeyboardInterrupt).
Proof. reflexivity. Qed.

Lemma run_scan_workflow_removes_archive_example :
  ~ In [".iac-scan-20260101120000.zip"] [["README.md"]]
  /\ ~ In [".iac-scan-20260101120000.zip"]
          (Main.files (fst (sample_run running_service 20))).
Proof.
  assert (~ In [".iac-scan-20260101120000.zip"] [["README.md"]]) as Hfresh.
  { intros [H|[]]. discriminate H. }
  split; [exact Hfresh|].
  exact (proj2 (proj2 (run_scan_workflow_removes_archive
                         (Some (FileUtils.Dir sample_tree)) (fun _ => Some "bytes")
                         (fun _ _ => "not in the subpath") "20260101120000"
                         (Py.Return tt)
                         (fun _ _ _ _ => Py.Return (client_of running_service))
                         (Py.Return tt) (fun _ => Py.Return tt)
                         [["README.md"]] (sample_config 20)))
               Hfresh).
Defined.

(* ===================================================================== *)
(** * resultParser.py: loading, reporting and what is printed             *)
(* ===================================================================== *)

Section Loading.
Import Py ResultParser.

Variable read_file : string -> read_outcome.
Variable json_loads : string -> option value.



(** What [load_scan_data] prints: nothing, or one line on standard error,
    and then it returns [None]. *)
Lemma load_scan_data_output (file_path : string) :
  load_scan_data read_file json_loads file_path
  = ([], snd (load_scan_data read_file json_loads file_path))
  \/ exists msg,
      load_scan_data read_file json_loads file_path = ([(Stderr, msg)], Return PNone).
Proof.
  unfold load_scan_data. destruct (read_file file_path) as [content| |msg|].
  - destruct (json_loads _); [left; reflexivity|right; eexists; reflexivity].
  - right; eexists; reflexivity.
  - right; eexists; reflexivity.
  - left; reflexivity.
Qed.

End Loading.



Section Printing.
Import Py ResultParser.

Variable read_file : string -> read_outcome.
Variable json_loads : string -> option value.
Variable float_repr : spec_float -> string.
Variable str_repr : string -> string.

Let str := Py.str float_repr str_repr.

Lemma fst_bind {L A B} (m : W L A) (k : A -> W L B) :
  fst (bind m k) = (fst m ++ match snd m with
                             | Return a => fst (k a)
                             | Raise _ => []
                             end)%list.
Proof.
  destruct m as [out [a|e]]; cbn; [destruct (k a); reflexivity|].
  now rewrite app_nil_r.
Qed.

(** ** The lines of the reporter *)

(** A record the reporter can render: a parsing error, or a failed check
    whose details are a dictionary. *)
Definition reportable (r : failure) : Prop :=
  match r with
  | ParsingError _ => True
  | FailedCheck check_details => is_dict check_details = true
  end.

(** The line of a record. *)
Definition record_line (r : failure) : string :=
  match r with
  | ParsingError data => "::error::Parsing error file paths=" ++ str data
  | FailedCheck (PDict check) => check_line float_repr str_repr check
  | FailedCheck _ => ""
  end.

(** A line that carries the annotation marker. *)
Definition annotated (text : string) : Prop :=
  exists rest, text = ERROR_PREFIX ++ rest.

Lemma report_one_reportable (r : failure) :
  reportable r ->
  report_one float_repr str_repr r = ([(Stdout, record_line r)], Return tt).
Proof.
  destruct r as [data|[ | | | | | |check]]; cbn [reportable is_dict];
    try discriminate; intros _.
  - reflexivity.
  - apply report_one_failed_check.
Qed.

Lemma report_one_not_dict (check_details : value) :
  is_dict check_details = false ->
  report_one float_repr str_repr (FailedCheck check_details)
  = ([], Raise AttributeError).
Proof. destruct check_details; try discriminate; reflexivity. Qed.

Lemma record_line_annotated (r : failure) : reportable r -> annotated (record_line r).
Proof.
  destruct r as [data|[ | | | | | |check]]; cbn [reportable is_dict];
    try discriminate; intros _; eexists; reflexivity.
Qed.

Lemma report_loop_reportable (records : list failure) :
  forall flag : bool,
    Forall reportable records ->
    report_loop float_repr str_repr records flag
    = (map (fun r => (Stdout, record_line r)) records,
       Return (flag || match records with [] => false | _ => true end)).
Proof.
  induction records as [|r records IH]; intros flag Hall; cbn [report_loop map].
  - now rewrite orb_false_r.
  - inversion Hall as [|? ? Hr Hrest]; subst.
    rewrite (bind_returns _ _ _ _ (report_one_reportable r Hr)), (IH true Hrest).
    cbn. now rewrite orb_true_r.
Qed.

(** X2.  Over records it can render, [report_failures] prints one line per
    record on standard output, in the order of the records, each with the
    annotation marker in front; it returns whether there was a record, and
    when the generator behind the records raised, it raises the same after
    the lines.  With no record it prints nothing and returns [False]. *)
Theorem report_failures_lines (records : list failure) (ended : result unit) :
  Forall reportable records ->
  report_failures float_repr str_repr (records, ended)
  = (map (fun r => (Stdout, record_line r)) records,
     match ended with
     | Return _ => Return (match records with [] => false | _ => true end)
     | Raise e => Raise e
     end)
  /\ Forall (fun r => annotated (record_line r)) records.
Proof.
  intros Hall. split.
  - unfold report_failures. cbn [fst snd].
    rewrite (bind_returns _ _ _ _ (report_loop_reportable records false Hall)).
    destruct ended as [[]|e]; cbn; now rewrite app_nil_r.
  - apply Forall_forall. intros r Hr. apply record_line_annotated.
    rewrite Forall_forall in Hall. now apply Hall.
Qed.

(** X3.  The first failed check whose details are not a dictionary stops
    the reporter: the records before it have their lines, then
    [AttributeError] is raised and nothing is printed for that record or
    for those after it. *)
Theorem report_failures_stops (good : list failure) (check_details : value)
        (rest : list failure) (ended : result unit) :
  Forall reportable good ->
  is_dict check_details = false ->
  report_failures float_repr str_repr
                  ((good ++ FailedCheck check_details :: rest)%list, ended)
  = (map (fun r => (Stdout, record_line r)) good, Raise AttributeError).
Proof.
  intros Hgood Hnot. unfold report_failures. cbn [fst snd].
  assert (forall flag,
             report_loop float_repr str_repr
                         (good ++ FailedCheck check_details :: rest)%list flag
             = (map (fun r => (Stdout, record_line r)) good, Raise AttributeError))
    as Hloop.
  { induction Hgood as [|r good Hr _ IH]; intros flag; cbn [app report_loop map].
    - now rewrite (bind_raises _ _ _ _ (report_one_not_dict _ Hnot)).
    - rewrite (bind_returns _ _ _ _ (report_one_reportable r Hr)), IH. reflexivity. }
  now rewrite (bind_raises _ _ _ _ (Hloop false)).
Qed.

(** ** What [main] prints *)

(** Whatever the records, each line of the reporter is on standard output
    and carries the marker. *)
Lemma report_loop_annotated (records : list failure) :
  forall flag : bool,
    Forall (fun l => exists text, l = (Stdout, text) /\ annotated text)
           (fst (report_loop float_repr str_repr records flag)).
Proof.
  induction records as [|r records IH]; intros flag; cbn [report_loop].
  - constructor.
  - rewrite fst_bind. apply Forall_app. split.
    + destruct r as [data|check]; cbn [report_one].
      * repeat constructor. eexists. split; [reflexivity|]. eexists; reflexivity.
      * rewrite fst_bind. cbn [lift fst snd app].
        destruct (map_result _ _); [|constructor].
        repeat constructor. eexists. split; [reflexivity|]. eexists; reflexivity.
    + destruct (snd (report_one float_repr str_repr r)); [apply IH|constructor].
Qed.

Lemma report_failures_annotated (failures : W failure unit) :
  Forall (fun l => exists text, l = (Stdout, text) /\ annotated text)
         (fst (report_failures float_repr str_repr failures)).
Proof.
  unfold report_failures. rewrite fst_bind. apply Forall_app. split.
  - apply report_loop_annotated.
  - destruct (snd (report_loop _ _ _ _)); [|constructor].
    destruct (snd failures); constructor.
Qed.

Definition success_line : string :=
  "Success: No failed checks or parsing errors found.".

(** The output of [main], by the way the run goes. *)
Lemma main_output (file_path : string) :
  let run := main read_file json_loads float_repr str_repr file_path in
  (exists msg, run = ([(Stderr, msg)], Return 1%Z))
  \/ run = ([], Return 1%Z)
  \/ (exists e, run = ([], Raise e))
  \/ (exists failures e,
         run = (fst (report_failures float_repr str_repr failures), Raise e))
  \/ (exists failures,
         run = ((fst (report_failures float_repr str_repr failures)
                 ++ [(Stderr, String "010" "Failures were detected.")])%list,
                Return 1%Z))
  \/ run = ([(Stdout, success_line)], Return 0%Z).
Proof.
  cbv zeta. unfold main.
  destruct (load_scan_data_output read_file json_loads file_path)
    as [Hquiet|(msg & Hloud)].
  2:{ left. exists msg. now rewrite (bind_returns _ _ _ _ Hloud). }
  destruct (snd (load_scan_data read_file json_loads file_path))
    as [scan_data|e] eqn:Hload.
  2:{ right; right; left. exists e. now rewrite (bind_raises _ _ _ _ Hquiet). }
  rewrite (bind_returns _ _ _ _ Hquiet). cbn [app].
  destruct (truthy scan_data); cbn [negb]; [|now right; left].
  destruct (get scan_data "status" PNone) as [status|e].
  2:{ right; right; left. now exists e. }
  rewrite bind_lift_return.
  destruct (eq_str status "FINISHED"); cbn [negb].
  2:{ left. eexists. reflexivity. }
  destruct (report_failures float_repr str_repr (extract_failures scan_data))
    as [lines [any|e]] eqn:Hreport.
  - rewrite (bind_returns _ _ lines any eq_refl).
    destruct any.
    + right; right; right; right; left. exists (extract_failures scan_data).
      now rewrite Hreport.
    + right; right; right; right; right.
      assert (snd (report_failures float_repr str_repr (extract_failures scan_data))
              = Return false) as Hsnd by now rewrite Hreport.
      apply report_failures_returns in Hsnd as (Hended & Hnone).
      destruct (extract_failures scan_data) as [records ended].
      cbn [fst snd] in *. subst ended. destruct records; [|discriminate].
      rewrite report_failures_nothing in Hreport. injection Hreport as <-.
      reflexivity.
  - right; right; right; left. exists (extract_failures scan_data), e.
    now rewrite (bind_raises _ _ lines e eq_refl), Hreport.
Qed.

(** X4.  All that [main] ever prints on standard output is lines that
    carry the annotation marker and the line of success; the line of
    success is printed exactly when [main] returns 0, and it is then the
    whole output. *)
Theorem main_stdout (file_path : string) :
  let run := main read_file json_loads float_repr str_repr file_path in
  (forall text, In (Stdout, text) (fst run) -> annotated text \/ text = success_line)
  /\ (In (Stdout, success_line) (fst run) <-> snd run = Return 0%Z)
  /\ (snd run = Return 0%Z -> fst run = [(Stdout, success_line)]).
Proof.
  cbv zeta.
  assert (forall failures text,
             In (Stdout, text) (fst (report_failures float_repr str_repr failures)) ->
             annotated text) as Hlines.
  { intros failures text Hin.
    pose proof (report_failures_annotated failures) as Hall.
    rewrite Forall_forall in Hall. destruct (Hall _ Hin) as (text' & [= ->] & H).
    exact H. }
  assert (~ annotated success_line) as Hsuccess
      by (intros (rest & H); discriminate H).
  destruct (main_output file_path)
    as [(msg & ->)|[->|[(e & ->)|[(fs & e & ->)|[(fs & ->)| ->]]]]]; cbn [fst snd].
  - repeat split; try discriminate.
    + intros text [[=]|[]].
    + intros [[=]|[]].
  - repeat split; try discriminate; intros; contradiction.
  - repeat split; try discriminate; intros; contradiction.
  - repeat split; try discriminate.
    + intros text Hin. left. eauto.
    + intros Hin. exfalso. eauto.
  - repeat split; try discriminate.
    + intros text Hin. apply in_app_or in Hin as [Hin|[[=]|[]]]. left. eauto.
    + intros Hin. apply in_app_or in Hin as [Hin|[[=]|[]]]. exfalso. eauto.
  - repeat split; auto.
    + intros text [[= <-]|[]]. now right.
    + now left.
Qed.

(** The JSON text of a file: what follows the preamble, or all of it. *)
Definition json_text (content : string) : string :=
  match index 0 JSON_PREAMBLE content with
  | Some pos => slice_from (pos + String.length JSON_PREAMBLE) content
  | None => content
  end.


End Printing.

(** Two records and a generator that raised after them. *)
Definition two_records : list ResultParser.failure :=
  [ ResultParser.ParsingError (Py.PStr "a.tf");
    ResultParser.FailedCheck (Py.PDict cid1_check) ].

Lemma report_failures_lines_example :
  ResultParser.report_failures (fun _ => "") (fun s => s)
                               (two_records, Py.Raise Py.AttributeError)
  = ([ (ResultParser.Stdout, "::error::Parsing error file paths=a.tf");
       (ResultParser.Stdout,
        "::error::File Name=None, Qualys CID=CID-1, Control Name=None, Criticality=HIGH, Remediation=None") ],
     Py.Raise Py.AttributeError).
Proof.
  assert (Forall reportable two_records) as Hall by (repeat constructor).
  exact (proj1 (report_failures_lines (fun _ => "") (fun s => s) two_records
                                      (Py.Raise Py.AttributeError) Hall)).
Defined.

Lemma report_failures_stops_example :
  ResultParser.report_failures
    (fun _ => "") (fun s => s)
    ((two_records ++ ResultParser.FailedCheck (Py.PStr "CID-2")
                  :: [ResultParser.ParsingError (Py.PStr "b.tf")])%list,
     Py.Return tt)
  = ([ (ResultParser.Stdout, "::error::Parsing error file paths=a.tf");
       (ResultParser.Stdout,
        "::error::File Name=None, Qualys CID=CID-1, Control Name=None, Criticality=HIGH, Remediation=None") ],
     Py.Raise Py.AttributeError).
Proof.
  assert (Forall reportable two_records) as Hall by (repeat constructor).
  exact (report_failures_stops (fun _ => "") (fun s => s) two_records
                               (Py.PStr "CID-2")
                               [ResultParser.ParsingError (Py.PStr "b.tf")]
                               (Py.Return tt) Hall eq_refl).
Defined.

(* ===================================================================== *)
(** * qualys_client.py: the polling loop against any service              *)
(* ===================================================================== *)

Section PollingAnyService.
Import Py QualysClient.
Local Open Scope Z_scope.

Variable srv : service.
Variable scan_uuid : string.
Variables interval timeout start_time : Z.

(** The status of a JSON object is [FINISHED] or it is not. *)
Lemma finished_or_not (d : list (string * value)) :
  lookup d "status" = Some (PStr "FINISHED")
  \/ lookup d "status" <> Some (PStr "FINISHED").
Proof.
  destruct (lookup d "status") as [status|]; [|right; discriminate].
  destruct (eq_str status "FINISHED") eqn:Hfin.
  - left. apply finished_status in Hfin. now subst.
  - right. intros [= ->]. discriminate Hfin.
Qed.


(** A GET that fails ends the loop with its exception. *)
Lemma poll_loop_failed (fuel : nat) (w : world) (msg : string) :
  now w - start_time < timeout ->
  answer (srv scan_uuid (List.length (requests w))) = Failed msg ->
  poll_loop (S fuel) srv scan_uuid interval timeout start_time w
  = Some (after_get srv scan_uuid w, Raise (RequestException msg)).
Proof.
  intros Hin Hanswer. cbn [poll_loop].
  apply Z.ltb_lt in Hin. rewrite Hin. unfold session_get.
  now rewrite Hanswer.
Qed.

(** A body that is not a JSON object has no [get]. *)
Lemma poll_loop_no_object (fuel : nat) (w : world) (data : value) :
  now w - start_time < timeout ->
  answer (srv scan_uuid (List.length (requests w))) = Json data ->
  is_dict data = false ->
  poll_loop (S fuel) srv scan_uuid interval timeout start_time w
  = Some (after_get srv scan_uuid w, Raise AttributeError).
Proof.
  intros Hin Hanswer Hnot. cbn [poll_loop].
  apply Z.ltb_lt in Hin. rewrite Hin. unfold session_get.
  rewrite Hanswer. destruct data; try discriminate; reflexivity.
Qed.

(** [m] rounds of replies that are not terminal, all begun in time, bring
    the loop to the world after them. *)
Lemma poll_loop_skip (m : nat) :
  forall (k : nat) (w : world),
    List.length (requests w) = k ->
    now w - start_time = elapsed_after srv scan_uuid interval k ->
    0 <= interval ->
    (forall j, (k <= j < k + m)%nat -> non_terminal (srv scan_uuid j)) ->
    elapsed_after srv scan_uuid interval (k + m)%nat < timeout ->
    exists w',
      List.length (requests w') = (k + m)%nat
      /\ now w' - start_time = elapsed_after srv scan_uuid interval (k + m)%nat
      /\ forall fuel,
          poll_loop (m + fuel) srv scan_uuid interval timeout start_time w
          = poll_loop fuel srv scan_uuid interval timeout start_time w'.
Proof.
  induction m as [|m IH]; intros k w Hlen Hnow Hint Hnt Hbudget.
  - exists w. rewrite Nat.add_0_r in *. now repeat split.
  - pose proof (elapsed_after_mono srv scan_uuid interval k (S m) Hint) as Hmono.
    destruct (IH (S k) (after_round srv scan_uuid interval w)) as (w' & Hlen' & Hnow' & Hrun).
    + cbn. lia.
    + cbn [after_round after_get now elapsed_after]. rewrite Hlen. lia.
    + exact Hint.
    + intros j Hj. apply Hnt. lia.
    + now replace (S k + m)%nat with (k + S m)%nat by lia.
    + exists w'. replace (k + S m)%nat with (S k + m)%nat by lia.
      repeat split; [exact Hlen'|exact Hnow'|].
      intros fuel. cbn [Nat.add].
      rewrite poll_loop_again; [apply Hrun|lia|rewrite Hlen; apply Hnt; lia|exact Hint].
Qed.

(** A run that returns went through replies that were not terminal and
    then a terminal one. *)
Lemma poll_loop_returned (fuel : nat) :
  forall (w w' : world) (data : value),
    now w - start_time
    = elapsed_after srv scan_uuid interval (List.length (requests w)) ->
    poll_loop fuel srv scan_uuid interval timeout start_time w
    = Some (w', Return data) ->
    exists m : nat,
      List.length (requests w') = (List.length (requests w) + m + 1)%nat
      /\ (forall j, (List.length (requests w) <= j < List.length (requests w) + m)%nat ->
                    non_terminal (srv scan_uuid j))
      /\ terminal (srv scan_uuid (List.length (requests w) + m)%nat) data
      /\ elapsed_after srv scan_uuid interval (List.length (requests w) + m)%nat
         < timeout
      /\ (m < fuel)%nat
      /\ ((0 < m)%nat -> 0 <= interval).
Proof.
  induction fuel as [|fuel IH]; intros w w' data Hnow Hrun; [discriminate Hrun|].
  cbn [poll_loop] in Hrun.
  destruct (now w - start_time <? timeout) eqn:Hin; [|discriminate Hrun].
  apply Z.ltb_lt in Hin. unfold session_get in Hrun.
  destruct (answer (srv scan_uuid (List.length (requests w))))
    as [body|msg] eqn:Hanswer; [|discriminate Hrun].
  destruct body as [ | | | | | |d]; try discriminate Hrun. cbn [get] in Hrun.
  destruct (eq_str match lookup d "status" with
                   | Some x => x
                   | None => PStr "UNKNOWN"
                   end "FINISHED") eqn:Hfin.
  - injection Hrun as <- <-. exists 0%nat. rewrite !Nat.add_0_r.
    apply finished_status in Hfin.
    repeat split; [cbn; lia|intros j Hj; lia| |lia|lia|lia].
    exists d. repeat split; [exact Hanswer|].
    destruct (lookup d "status"); [now subst|discriminate Hfin].
  - unfold sleep in Hrun.
    destruct (interval <? 0) eqn:Hint; [discriminate Hrun|].
    apply Z.ltb_ge in Hint.
    apply IH in Hrun as (m & Hlen & Hnt & Hterm & Hbudget & Hfuel & _).
    2:{ cbn [now requests List.length elapsed_after]. lia. }
    cbn [requests List.length] in *.
    exists (S m).
    replace (List.length (requests w) + S m)%nat
      with (S (List.length (requests w)) + m)%nat by lia.
    repeat split; [lia| |exact Hterm|exact Hbudget|lia|lia].
    intros j Hj.
    destruct (Nat.eq_dec j (List.length (requests w))) as [->|Hne];
      [|apply Hnt; lia].
    exists d. split; [exact Hanswer|].
    intros Hstatus. rewrite Hstatus in Hfin. discriminate Hfin.
Qed.

(** With a positive interval the loop ends, whatever the service replies:
    the GETs are a whole interval apart at least, and none is sent with
    the budget used up. *)
Lemma poll_loop_ends (n : nat) :
  forall w : world,
    0 < interval ->
    timeout - (now w - start_time) <= Z.of_nat n ->
    Forall (fun sent => sent - start_time < timeout) (requests w) ->
    Z.of_nat (List.length (requests w)) * interval <= now w - start_time ->
    exists w' outcome,
      (forall fuel, (n < fuel)%nat ->
                    poll_loop fuel srv scan_uuid interval timeout start_time w
                    = Some (w', outcome))
      /\ Forall (fun sent => sent - start_time < timeout) (requests w')
      /\ (List.length (requests w) <= List.length (requests w'))%nat
      /\ ((List.length (requests w) < List.length (requests w'))%nat ->
          (Z.of_nat (List.length (requests w')) - 1) * interval < timeout).
Proof.
  induction n as [|n IH]; intros w Hint Hleft Hsent Hpace.
  - exists w, (Raise (TimeoutError (timeout_message timeout))).
    repeat split; [|exact Hsent|lia|lia].
    intros [|fuel] Hfuel; [lia|]. apply poll_loop_timed_out. lia.
  - destruct (Z_lt_le_dec (now w - start_time) timeout) as [Hin|Hout].
    2:{ exists w, (Raise (TimeoutError (timeout_message timeout))).
        repeat split; [|exact Hsent|lia|lia].
        intros [|fuel] Hfuel; [lia|]. now apply poll_loop_timed_out. }
    assert (Forall (fun sent => sent - start_time < timeout)
                   (requests (after_get srv scan_uuid w))) as Hsent1 by now constructor.
    assert (forall outcome,
               (forall fuel,
                   poll_loop (S fuel) srv scan_uuid interval timeout start_time w
                   = Some (after_get srv scan_uuid w, outcome)) ->
               exists w' outcome,
                 (forall fuel, (S n < fuel)%nat ->
                               poll_loop fuel srv scan_uuid interval timeout start_time w
                               = Some (w', outcome))
                 /\ Forall (fun sent => sent - start_time < timeout) (requests w')
                 /\ (List.length (requests w) <= List.length (requests w'))%nat
                 /\ ((List.length (requests w) < List.length (requests w'))%nat ->
                     (Z.of_nat (List.length (requests w')) - 1) * interval
                     < timeout)) as Hstop.
    { intros outcome Hrun. exists (after_get srv scan_uuid w), outcome.
      repeat split; [|exact Hsent1|cbn; lia|].
      - intros [|fuel] Hfuel; [lia|]. apply Hrun.
      - intros _. cbn [after_get requests List.length]. nia. }
    destruct (answer (srv scan_uuid (List.length (requests w))))
      as [body|msg] eqn:Hanswer.
    2:{ apply (Hstop (Raise (RequestException msg))).
        intros fuel. now apply poll_loop_failed. }
    destruct (is_dict body) eqn:Hdict.
    2:{ apply (Hstop (Raise AttributeError)).
        intros fuel. now apply (poll_loop_no_object fuel w body). }
    destruct body as [ | | | | | |d]; try discriminate Hdict.
    destruct (finished_or_not d) as [Hfin|Hnot].
    { apply (Hstop (Return (PDict d))).
      intros fuel. apply poll_loop_finished; [exact Hin|].
      exists d. now repeat split. }
    assert (non_terminal (srv scan_uuid (List.length (requests w)))) as Hnt
        by (exists d; now split).
    destruct (IH (after_round srv scan_uuid interval w) Hint) as (w' & outcome & Hrun & Hsent' & Hmore & Hcount).
    + cbn [after_round after_get now]. lia.
    + exact Hsent1.
    + cbn [after_round after_get now requests List.length]. nia.
    + exists w', outcome.
      cbn [after_round after_get requests List.length] in Hmore, Hcount.
      repeat split; [|exact Hsent'|lia|].
      * intros [|fuel] Hfuel; [lia|].
        rewrite poll_loop_again; [apply Hrun; lia|exact Hin|exact Hnt|lia].
      * intros _. destruct (Nat.eq_dec (List.length (requests w'))
                                       (S (List.length (requests w)))) as [Heq|Hne].
        -- rewrite Heq. nia.
        -- apply Hcount. lia.
Qed.

End PollingAnyService.

Section PollingExtras.
Import Py QualysClient.
Local Open Scope Z_scope.

(** X6.  [poll_scan_results] returns nothing but the payload of a reply
    with status [FINISHED]: when it returns [data] after [N + 1] GETs,
    the first [N] replies were not terminal, reply [N] was [data] with
    status [FINISHED], and the [N] rounds before it ended within the
    timeout. *)
Theorem poll_scan_results_returned
        (srv : service) (scan_uuid : string) (interval timeout t0 : Z)
        (fuel : nat) (w' : world) (data : value) :
  poll_scan_results fuel srv scan_uuid interval timeout (fresh t0)
  = Some (w', Return data) ->
  exists N : nat,
    List.length (requests w') = (N + 1)%nat
    /\ (forall k, (k < N)%nat -> non_terminal (srv scan_uuid k))
    /\ terminal (srv scan_uuid N) data
    /\ elapsed_after srv scan_uuid interval N < timeout
    /\ (N < fuel)%nat
    /\ ((0 < N)%nat -> 0 <= interval).
Proof.
  unfold poll_scan_results. intros Hrun.
  apply poll_loop_returned in Hrun as (m & Hlen & Hnt & Hterm & Hbudget & Hfuel & Hint);
    [|cbn; lia].
  cbn [fresh requests List.length Nat.add] in *.
  exists m. repeat split; auto.
  intros k Hk. apply Hnt. lia.
Qed.

(** The exception a reply brings to the loop: that of a failed request, or
    [AttributeError] for a body that is no JSON object. *)
Definition failure_of (r : response) : option exception :=
  match r with
  | Failed msg => Some (RequestException msg)
  | Json (PDict _) => None
  | Json _ => Some AttributeError
  end.

(** X7.  A GET that fails is not tried again.  After [N] replies that are
    not terminal, a reply that is a failed request makes
    [poll_scan_results] raise that [RequestException], and a reply whose
    body is no JSON object makes it raise [AttributeError]; either way
    after exactly [N + 1] GETs. *)
Theorem poll_scan_results_no_retry
        (srv : service) (scan_uuid : string) (interval timeout t0 : Z)
        (N fuel : nat) (e : exception) :
  0 <= interval ->
  (forall k, (k < N)%nat -> non_terminal (srv scan_uuid k)) ->
  failure_of (answer (srv scan_uuid N)) = Some e ->
  elapsed_after srv scan_uuid interval N < timeout ->
  (N < fuel)%nat ->
  exists w',
    poll_scan_results fuel srv scan_uuid interval timeout (fresh t0)
    = Some (w', Raise e)
    /\ List.length (requests w') = (N + 1)%nat.
Proof.
  intros Hint Hnt Hfail Hbudget Hfuel. unfold poll_scan_results.
  destruct (poll_loop_skip srv scan_uuid interval timeout (now (fresh t0)) N
                           0%nat (fresh t0) eq_refl)
    as (w & Hlen & Hnow & Hrun).
  { cbn. lia. }
  { exact Hint. }
  { intros j Hj. apply Hnt. lia. }
  { exact Hbudget. }
  cbn [Nat.add] in *. exists (after_get srv scan_uuid w).
  split; [|cbn; lia].
  replace fuel with (N + S (fuel - S N))%nat by lia. rewrite Hrun.
  destruct (answer (srv scan_uuid N)) as [body|msg] eqn:Hanswer.
  - assert (is_dict body = false /\ e = AttributeError) as (Hdict & ->)
          by (destruct body; cbn in Hfail; try discriminate Hfail;
              injection Hfail as <-; now split).
      apply (poll_loop_no_object srv scan_uuid interval timeout (now (fresh t0))
                                 _ w body); [lia|now rewrite Hlen|exact Hdict].
  - injection Hfail as <-.
    apply poll_loop_failed; [lia|now rewrite Hlen].
Qed.

(** X8.  With a positive interval [poll_scan_results] ends, whatever the
    service replies and however long the replies take: more iterations
    than the timeout has seconds are never needed.  Every GET is sent with
    the time elapsed still below the timeout, and the GETs are an interval
    apart at least, so that [n] GETs mean [(n - 1) * interval] is below the
    timeout; with a timeout of zero or less no GET is sent. *)
Theorem poll_scan_results_ends
        (srv : service) (scan_uuid : string) (interval timeout t0 : Z) :
  0 < interval ->
  exists w' outcome,
    (forall fuel, (Z.to_nat timeout < fuel)%nat ->
                  poll_scan_results fuel srv scan_uuid interval timeout (fresh t0)
                  = Some (w', outcome))
    /\ Forall (fun sent => sent - t0 < timeout) (requests w')
    /\ (requests w' <> [] ->
        (Z.of_nat (List.length (requests w')) - 1) * interval < timeout)
    /\ (timeout <= 0 -> requests w' = []).
Proof.
  intros Hint. unfold poll_scan_results.
  destruct (poll_loop_ends srv scan_uuid interval timeout (now (fresh t0))
                           (Z.to_nat timeout) (fresh t0) Hint)
    as (w' & outcome & Hrun & Hsent & _ & Hcount).
  - cbn. lia.
  - constructor.
  - cbn. lia.
  - cbn [fresh requests List.length now] in *.
    assert (requests w' <> [] ->
            (Z.of_nat (List.length (requests w')) - 1) * interval < timeout) as Hn.
    { intros Hne. apply Hcount. destruct (requests w'); [congruence|cbn; lia]. }
    exists w', outcome. repeat split; [exact Hrun|exact Hsent|exact Hn|].
    intros Hzero. destruct (requests w') as [|sent rest] eqn:Hreq; [reflexivity|].
    exfalso. assert (sent :: rest <> []) as Hne by discriminate.
    apply Hn in Hne. cbn [List.length] in Hne. nia.
Qed.

End PollingExtras.

(** Two replies in progress, then the service is unavailable. *)
Definition failing_service : QualysClient.service :=
  fun _ k =>
    {| QualysClient.latency := 2;
       QualysClient.answer :=
         match k with
         | 0 | 1 => QualysClient.Json (Py.PDict [("status", Py.PStr "IN_PROGRESS")])
         | _ => QualysClient.Failed "503 Server Error"
         end |}.

Lemma poll_scan_results_returned_example :
  exists N : nat,
    List.length [18; 12; 6; 0]%Z = (N + 1)%nat
    /\ (forall k, (k < N)%nat -> QualysClient.non_terminal (slow_service "scan-1" k))
    /\ QualysClient.terminal (slow_service "scan-1" N) finished_payload_sample
    /\ (QualysClient.elapsed_after slow_service "scan-1" 5 N < 60)%Z
    /\ (N < 10)%nat
    /\ ((0 < N)%nat -> (0 <= 5)%Z).
Proof.
  exact (poll_scan_results_returned
           slow_service "scan-1" 5 60 0 10
           {| QualysClient.now := 19; QualysClient.requests := [18; 12; 6; 0]%Z |}
           finished_payload_sample eq_refl).
Defined.

Lemma poll_scan_results_no_retry_example :
  exists w',
    QualysClient.poll_scan_results 10 failing_service "scan-1" 5 60
                                   (QualysClient.fresh 0)
    = Some (w', Py.Raise (Py.RequestException "503 Server Error"))
    /\ List.length (QualysClient.requests w') = 3%nat.
Proof.
  apply (poll_scan_results_no_retry failing_service "scan-1" 5 60 0 2 10
                                    (Py.RequestException "503 Server Error")).
  - lia.
  - intros [|[|k]] Hk; try lia; eexists; (split; [reflexivity|discriminate]).
  - reflexivity.
  - cbn. lia.
  - lia.
Defined.

Lemma poll_scan_results_ends_example :
  exists w' outcome,
    (forall fuel, (Z.to_nat 60 < fuel)%nat ->
                  QualysClient.poll_scan_results fuel failing_service "scan-1" 5 60
                                                 (QualysClient.fresh 0)
                  = Some (w', outcome))
    /\ Forall (fun sent => (sent - 0 < 60)%Z) (QualysClient.requests w')
    /\ (QualysClient.requests w' <> [] ->
        ((Z.of_nat (List.length (QualysClient.requests w')) - 1) * 5 < 60)%Z)
    /\ ((60 <= 0)%Z -> QualysClient.requests w' = []).
Proof.
  apply (poll_scan_results_ends failing_service "scan-1" 5 60 0). lia.
Defined.

(* ===================================================================== *)
(** * qualys_client.py: the client object                                 *)
(* ===================================================================== *)

Section ClientObject.
Import Py QualysClient.

(** [n] slashes. *)
Fixpoint slashes (n : nat) : string :=
  match n with
  | O => ""
  | S n' => String "/" (slashes n')
  end.

(** The last character of [s] is a slash. *)
Fixpoint ends_with_slash (s : string) : bool :=
  match s with
  | EmptyString => false
  | String c EmptyString => (c =? "/")%char
  | String _ s' => ends_with_slash s'
  end.

Lemma rstrip_slash_empty (s : string) :
  rstrip_slash s = "" -> exists n, s = slashes n.
Proof.
  induction s as [|c s IH]; cbn [rstrip_slash]; [now exists 0|].
  destruct (rstrip_slash s) as [|c' rest]; [|discriminate].
  destruct (Ascii.eqb_spec c "/") as [->|]; [|discriminate].
  intros _. destruct (IH eq_refl) as (n & ->). now exists (S n).
Qed.

Lemma rstrip_slash_cut (s : string) :
  exists n, s = rstrip_slash s ++ slashes n.
Proof.
  induction s as [|c s (n & IH)]; cbn [rstrip_slash]; [now exists 0|].
  destruct (rstrip_slash s) as [|c' rest] eqn:Hrest.
  - destruct (rstrip_slash_empty s Hrest) as (m & ->).
    destruct (Ascii.eqb_spec c "/") as [->|].
    + now exists (S m).
    + now exists m.
  - exists n. change (String c s = String c (String c' rest ++ slashes n)).
    now f_equal.
Qed.

Lemma rstrip_slash_end (s : string) : ends_with_slash (rstrip_slash s) = false.
Proof.
  induction s as [|c s IH]; cbn [rstrip_slash]; [reflexivity|].
  destruct (rstrip_slash s) as [|c' rest] eqn:Hrest.
  - destruct (Ascii.eqb_spec c "/") as [->|Hne]; [reflexivity|].
    cbn. now apply Ascii.eqb_neq.
  - exact IH.
Qed.

Lemma rstrip_slash_slashes (n : nat) : rstrip_slash (slashes n) = "".
Proof. induction n as [|n IH]; cbn; [reflexivity|now rewrite IH]. Qed.

Lemma rstrip_slash_append (s : string) (n : nat) :
  rstrip_slash (s ++ slashes n) = rstrip_slash s.
Proof.
  induction s as [|c s IH]; cbn [append rstrip_slash].
  - apply rstrip_slash_slashes.
  - now rewrite IH.
Qed.

Variable is_file : string -> bool.
Variable create_default_context : string -> result ssl_context.
Variable flag_bits : Z.
Variable default_headers : list (string * string).

Let _configure_ssl := _configure_ssl is_file create_default_context flag_bits.
Let __init__ := __init__ is_file create_default_context flag_bits default_headers.

Lemma get_header_set_header (hs : list (string * string)) (key value k : string) :
  get_header (set_header hs key value) k
  = if FileUtils.lower key =? FileUtils.lower k then Some value else get_header hs k.
Proof.
  induction hs as [|[k' v'] hs IH]; cbn [set_header get_header]; [reflexivity|].
  destruct (String.eqb_spec (FileUtils.lower k') (FileUtils.lower key)) as [Heq|Hne];
    cbn [get_header].
  - rewrite Heq. now destruct (FileUtils.lower key =? FileUtils.lower k).
  - destruct (String.eqb_spec (FileUtils.lower k') (FileUtils.lower k)) as [Heq'|Hne'].
    + destruct (String.eqb_spec (FileUtils.lower key) (FileUtils.lower k));
        [congruence|reflexivity].
    + exact IH.
Qed.

(** X9.  A client that was constructed holds the URL with the slashes at
    its end taken off and with nothing else changed, so the URL of a
    request never has two slashes where the path is joined on; URLs that
    differ in the slashes at their end give the same client.  Its session
    answers [application/json] for the [Accept] header, in any case of the
    letters, and keeps every other header of a fresh session. *)
Theorem init_client (url username password : string)
        (custom_ca_bundle : option string) (self : QualysApiClient) :
  __init__ url username password custom_ca_bundle = Return self ->
  (exists n, url = base_url self ++ slashes n)
  /\ ends_with_slash (base_url self) = false
  /\ (forall n, __init__ (url ++ slashes n) username password custom_ca_bundle
                = Return self)
  /\ _auth self = (username, password)
  /\ (forall k, get_header (headers (_session self)) k
                = if FileUtils.lower k =? "accept" then Some "application/json"
                  else get_header default_headers k).
Proof.
  unfold __init__, QualysClient.__init__.
  destruct (QualysClient._configure_ssl _ _ _ _ _) as [s [[]|e]] eqn:Hssl;
    [|discriminate].
  intros [= <-]. cbn [base_url _auth _session].
  repeat split.
  - apply rstrip_slash_cut.
  - apply rstrip_slash_end.
  - intros n. now rewrite rstrip_slash_append.
  - intros k.
    assert (headers s = set_header default_headers "Accept" "application/json") as ->.
    { unfold QualysClient._configure_ssl in Hssl.
      destruct custom_ca_bundle as [bundle|]; [|now injection Hssl as <-].
      destruct (bundle =? ""); [now injection Hssl as <-|].
      destruct (negb (is_file bundle)); [discriminate Hssl|].
      destruct (create_default_context bundle); [|discriminate Hssl].
      now injection Hssl as <-. }
    rewrite get_header_set_header. change (FileUtils.lower "Accept") with "accept".
    now rewrite String.eqb_sym.
Qed.

(** The bits of [VERIFY_X509_STRICT]: the fifth and no other. *)
Lemma strict_bit (i : Z) : Z.testbit VERIFY_X509_STRICT i = (i =? 5)%Z.
Proof.
  change VERIFY_X509_STRICT with (2 ^ 5)%Z.
  destruct (Z.eqb_spec i 5) as [->|Hne].
  - reflexivity.
  - apply Z.pow2_bits_false. congruence.
Qed.

(** X10.  [_configure_ssl] either leaves the session as it was or mounts a
    context.  It leaves it as it was, and returns, when no bundle or an
    empty path is given; it leaves it as it was, and raises, when the
    bundle is no file ([FileNotFoundError] with the path in the message)
    or when the context cannot be created from it.  Otherwise it returns,
    the headers of the session are kept, and the context mounted for HTTPS
    is the one created from the bundle with the strict flag off and every
    other flag that [~] keeps as it was. *)
Theorem configure_ssl_outcomes (custom_ca_bundle : option string) (s : session) :
  let run := _configure_ssl custom_ca_bundle s in
  (custom_ca_bundle = None \/ custom_ca_bundle = Some "" -> run = (s, Return tt))
  /\ (forall e, snd run = Raise e ->
                fst run = s
                /\ exists bundle,
                    custom_ca_bundle = Some bundle /\ bundle <> ""
                    /\ (is_file bundle = false
                        /\ e = FileNotFoundError
                                 ("Custom CA bundle not found at: " ++ bundle)
                        \/ is_file bundle = true
                           /\ create_default_context bundle = Raise e))
  /\ (forall bundle context,
         custom_ca_bundle = Some bundle -> bundle <> "" ->
         is_file bundle = true ->
         create_default_context bundle = Return context ->
         exists mounted,
           run = ({| headers := headers s; https_context := Some mounted |}, Return tt)
           /\ cafile mounted = cafile context
           /\ Z.testbit (verify_flags mounted) 5 = false
           /\ forall i, (0 <= i)%Z -> i <> 5%Z -> Z.testbit flag_bits i = true ->
                        Z.testbit (verify_flags mounted) i
                        = Z.testbit (verify_flags context) i).
Proof.
  cbv zeta. unfold _configure_ssl, QualysClient._configure_ssl. repeat split.
  - intros [->| ->]; reflexivity.
  - destruct custom_ca_bundle as [bundle|]; [|discriminate].
    destruct (bundle =? ""); [discriminate|].
    destruct (is_file bundle); cbn [negb]; [|reflexivity].
    destruct (create_default_context bundle); [discriminate|reflexivity].
  - destruct custom_ca_bundle as [bundle|]; [|discriminate H].
    exists bundle. destruct (String.eqb_spec bundle "") as [->|Hne];
      [discriminate H|].
    repeat split; [exact Hne|].
    destruct (is_file bundle); cbn [negb] in *.
    + right. split; [reflexivity|].
      destruct (create_default_context bundle); [discriminate H|].
      cbn in H. now injection H as ->.
    + left. split; [reflexivity|]. cbn in H. now injection H as <-.
  - intros bundle context -> Hne Hfile Hcontext.
    apply String.eqb_neq in Hne. rewrite Hne, Hfile, Hcontext. cbn [negb].
    eexists. repeat split; cbn [cafile verify_flags]; unfold invert_flag.
    + rewrite !Z.land_spec, Z.lnot_spec, strict_bit by lia.
      cbn. now rewrite !andb_false_r.
    + intros i Hi Hne5 Hbits.
      rewrite !Z.land_spec, Z.lnot_spec, strict_bit, Hbits by lia.
      apply Z.eqb_neq in Hne5. rewrite Hne5. cbn. now rewrite andb_true_r.
Qed.

Variable transport : request -> http_response.
Variable response_json : string -> result value.
Variable read_bytes : FileUtils.path -> option string.

Let initiate_scan := initiate_scan transport response_json read_bytes.

(** X11.  [initiate_scan] returns an identifier exactly when the archive
    can be read, the upload is answered with a body that passes
    [raise_for_status], the body is a JSON object, and the object holds
    under [scanUuid] a value that counts as true, which is the identifier
    returned.  So it never returns a null or empty identifier, and the
    request it sends goes to the base URL of the client followed by the
    path of the scan API, with the archive under its own file name. *)
Theorem initiate_scan_returns (self : QualysApiClient)
        (zip_file_path : FileUtils.path) (scan_name : string) (scan_uuid : value) :
  initiate_scan self zip_file_path scan_name = Return scan_uuid
  <-> exists f text d,
      read_bytes zip_file_path = Some f
      /\ transport {| verb := POST;
                      url := base_url self ++ "/cloudview-api/rest/v1/iac/scan";
                      auth := _auth self;
                      params := [];
                      request_headers := [];
                      files := [ {| field := "file";
                                    filename := Some (FileUtils.name zip_file_path);
                                    content := f;
                                    content_type := Some "application/zip" |};
                                 {| field := "name";
                                    filename := None;
                                    content := scan_name;
                                    content_type := None |} ];
                      sent_through := _session self |} = Body text
      /\ response_json text = Return (PDict d)
      /\ lookup d "scanUuid" = Some scan_uuid
      /\ truthy scan_uuid = true.
Proof.
  unfold initiate_scan, QualysClient.initiate_scan, scan_request. split.
  - destruct (read_bytes zip_file_path) as [f|]; [|discriminate].
    destruct (transport _) as [text|msg] eqn:Hsent; [|discriminate].
    destruct (response_json text) as [response_data|e] eqn:Hjson; [|discriminate].
    destruct response_data as [ | | | | | |d]; try discriminate. cbn [get].
    destruct (lookup d "scanUuid") as [v|] eqn:Hlookup; [|discriminate].
    destruct (truthy v) eqn:Htruthy; [|discriminate].
    intros [= <-]. exists f, text, d. now repeat split.
  - intros (f & text & d & -> & -> & -> & Hlookup & Htruthy).
    cbn [get]. now rewrite Hlookup, Htruthy.
Qed.

End ClientObject.

(** The headers of a fresh [requests.Session]. *)
Definition session_headers : list (string * string) :=
  [ ("User-Agent", "python-requests/2.31.0");
    ("Accept-Encoding", "gzip, deflate");
    ("Accept", "*/*");
    ("Connection", "keep-alive") ].

(** A context as [ssl.create_default_context] makes it: the flags
    [VERIFY_X509_TRUSTED_FIRST] and [VERIFY_X509_STRICT]. *)
Definition default_context (cafile : string) : Py.result QualysClient.ssl_context :=
  Py.Return {| QualysClient.cafile := cafile; QualysClient.verify_flags := 32800 |}.

Definition sample_client : QualysClient.QualysApiClient :=
  {| QualysClient.base_url := "https://qualys.example";
     QualysClient._auth := ("user", "secret");
     QualysClient._session :=
       {| QualysClient.headers :=
            [ ("User-Agent", "python-requests/2.31.0");
              ("Accept-Encoding", "gzip, deflate");
              ("Accept", "application/json");
              ("Connection", "keep-alive") ];
          QualysClient.https_context := None |} |}.

Lemma init_client_example :
  (exists n, "https://qualys.example//"
             = QualysClient.base_url sample_client ++ slashes n)
  /\ ends_with_slash (QualysClient.base_url sample_client) = false
  /\ (forall n,
         QualysClient.__init__ (fun _ => false) default_context 1048575 session_headers
                               ("https://qualys.example//" ++ slashes n)
                               "user" "secret" None
         = Py.Return sample_client)
  /\ QualysClient._auth sample_client = ("user", "secret")
  /\ (forall k,
         QualysClient.get_header
           (QualysClient.headers (QualysClient._session sample_client)) k
         = if FileUtils.lower k =? "accept" then Some "application/json"
           else QualysClient.get_header session_headers k).
Proof.
  exact (init_client (fun _ => false) default_context 1048575 session_headers
                     "https://qualys.example//" "user" "secret" None
                     sample_client eq_refl).
Defined.

Lemma configure_ssl_outcomes_example :
  (exists mounted,
      QualysClient._configure_ssl
        (fun p => p =? "ca.pem") default_context 1048575 (Some "ca.pem")
        (QualysClient._session sample_client)
      = ({| QualysClient.headers :=
              QualysClient.headers (QualysClient._session sample_client);
            QualysClient.https_context := Some mounted |},
         Py.Return tt)
      /\ QualysClient.cafile mounted = "ca.pem"
      /\ Z.testbit (QualysClient.verify_flags mounted) 5 = false
      /\ forall i, (0 <= i)%Z -> i <> 5%Z -> Z.testbit 1048575 i = true ->
                   Z.testbit (QualysClient.verify_flags mounted) i
                   = Z.testbit 32800 i)
  /\ forall e,
      snd (QualysClient._configure_ssl
             (fun p => p =? "ca.pem") default_context 1048575 (Some "missing.pem")
             (QualysClient._session sample_client)) = Py.Raise e ->
      e = Py.FileNotFoundError "Custom CA bundle not found at: missing.pem".
Proof.
  split.
  - exact (proj2 (proj2 (configure_ssl_outcomes
                           (fun p => p =? "ca.pem") default_context 1048575
                           (Some "ca.pem") (QualysClient._session sample_client)))
                 "ca.pem" {| QualysClient.cafile := "ca.pem";
                             QualysClient.verify_flags := 32800 |}
                 eq_refl ltac:(discriminate) eq_refl eq_refl).
  - intros e He.
    destruct (proj1 (proj2 (configure_ssl_outcomes
                              (fun p => p =? "ca.pem") default_context 1048575
                              (Some "missing.pem")
                              (QualysClient._session sample_client))) e He)
      as (_ & bundle & [= <-] & _ & [(_ & ->)|(Hfile & _)]);
      [reflexivity|discriminate Hfile].
Defined.

(* ===================================================================== *)
(** * file_utils.py: what the selection looks at                          *)
(* ===================================================================== *)

Section Selection.
Import Py FileUtils.

(** ** Case *)










(** ** The extension *)

Lemma append_length (a b : string) :
  String.length (a ++ b) = (String.length a + String.length b)%nat.
Proof. induction a as [|c a IH]; cbn; [reflexivity|now rewrite IH]. Qed.

Lemma substring_length_below (s : string) :
  forall i : nat, (i <= String.length s)%nat -> String.length (substring 0 i s) = i.
Proof.
  induction s as [|c s IH]; intros [|i] Hi; cbn in *; try reflexivity; try lia.
  rewrite IH; lia.
Qed.

Lemma substring_split (s : string) :
  forall i : nat,
    (i <= String.length s)%nat ->
    s = substring 0 i s ++ substring i (String.length s - i) s.
Proof.
  induction s as [|c s IH]; intros [|i] Hi; cbn [String.length] in *.
  - reflexivity.
  - lia.
  - change (substring 0 0 (String c s)) with "". cbn [append Nat.sub].
    change (String c s = substring 0 (String.length (String c s)) (String c s)).
    symmetry. apply substring_all.
  - cbn [substring append Nat.sub]. rewrite <- IH by lia. reflexivity.
Qed.

Lemma rfind_dot_at (s : string) :
  forall i : nat,
    rfind_dot s = Some i ->
    (i < String.length s)%nat
    /\ exists rest, substring i (String.length s - i) s = String "." rest
                    /\ rfind_dot rest = None.
Proof.
  induction s as [|c s IH]; intros i Hi; cbn [rfind_dot] in Hi; [discriminate|].
  destruct (rfind_dot s) as [j|] eqn:Hs.
  - injection Hi as <-. destruct (IH j eq_refl) as (Hlt & rest & Hsub & Hrest).
    split; [cbn; lia|]. exists rest. split; [|exact Hrest].
    cbn [String.length substring Nat.sub]. exact Hsub.
  - destruct (Ascii.eqb_spec c ".") as [->|]; [|discriminate].
    injection Hi as <-. split; [cbn; lia|]. exists s. split; [|exact Hs].
    rewrite Nat.sub_0_r. apply substring_all.
Qed.

(** X13.  A file passes the test of the extension only when its name is a
    stem that is not empty followed by the extension: the extension is
    what the name holds from its last dot on, it is more than the dot, and
    in lower case it is one of the five supported.  A name that is an
    extension and nothing before it, such as [.tf] or [.template], does
    not pass, nor does a name that ends with a dot. *)
Theorem supported_extension_has_stem (file : path) :
  has_supported_extension file = true ->
  exists stem rest,
    name file = stem ++ String "." rest
    /\ stem <> ""
    /\ rest <> ""
    /\ rfind_dot rest = None
    /\ suffix file = String "." rest
    /\ In (lower (String "." rest)) SUPPORTED_EXTENSIONS.
Proof.
  intros Hext. apply has_supported_extension_spec in Hext.
  unfold suffix in *. set (n := name file) in *.
  destruct (rfind_dot n) as [i|] eqn:Hdot.
  2:{ cbn in Hext. intuition discriminate. }
  destruct ((0 <? i) && (i <? String.length n - 1))%nat eqn:Hrange.
  2:{ cbn in Hext. intuition discriminate. }
  apply andb_true_iff in Hrange as (Hpos & Hend).
  apply Nat.ltb_lt in Hpos. apply Nat.ltb_lt in Hend.
  destruct (rfind_dot_at n i Hdot) as (Hlt & rest & Hsub & Hrest).
  exists (substring 0 i n), rest. rewrite Hsub in *.
  repeat split; [| | |exact Hrest|exact Hext].
  - rewrite <- Hsub. apply substring_split. lia.
  - intros Hempty.
    pose proof (substring_length_below n i ltac:(lia)) as Hlen.
    rewrite Hempty in Hlen. cbn in Hlen. lia.
  - intros ->.
    assert (String.length (substring i (String.length n - i) n) = 1%nat) as Hone
        by now rewrite Hsub.
    pose proof (substring_split n i ltac:(lia)) as Hsplit.
    apply (f_equal String.length) in Hsplit.
    rewrite append_length, substring_length_below, Hone in Hsplit by lia.
    lia.
Qed.

End Selection.


Lemma supported_extension_has_stem_example :
  exists stem rest,
    FileUtils.name ["repo"; "stack.v2.YAML"] = stem ++ String "." rest
    /\ stem <> ""
    /\ rest <> ""
    /\ FileUtils.rfind_dot rest = None
    /\ FileUtils.suffix ["repo"; "stack.v2.YAML"] = String "." rest
    /\ In (FileUtils.lower (String "." rest)) FileUtils.SUPPORTED_EXTENSIONS.
Proof.
  exact (supported_extension_has_stem ["repo"; "stack.v2.YAML"] eq_refl).
Defined.

(* ===================================================================== *)
(** * file_utils.py: the templates found go into the archive              *)
(* ===================================================================== *)

Section FoundToArchive.
Import Py FileUtils.

Variable read_bytes : path -> option string.
Variable not_in_subpath : path -> path -> string.





End FoundToArchive.


(* ===================================================================== *)
(** * main.py: what a run leaves behind, and the script                   *)
(* ===================================================================== *)

Section Runs.
Import Py Main.

Variable at_root : option FileUtils.node.
Variable read_bytes : FileUtils.path -> option string.
Variable not_in_subpath : FileUtils.path -> FileUtils.path -> string.
Variable timestamp : string.
Variable zip_opens : result unit.
Variable QualysApiClient : string -> string -> string -> option string -> result client.
Variable results_opens : result unit.
Variable json_dump : value -> result unit.
Variable disk : list FileUtils.path.
Variable config : AppConfig.

Let zip : FileUtils.path := [zip_file_name timestamp].
Let run : state * result unit :=
  run_scan_workflow at_root read_bytes not_in_subpath timestamp zip_opens
                    QualysApiClient results_opens json_dump config disk.
Let body : stmt unit :=
  try_body at_root read_bytes not_in_subpath timestamp zip_opens
           QualysApiClient results_opens json_dump config.
Let start : state := {| files := disk; zip_file_path := None; log := [] |}.

(** ** The steps between the archive and the results

    The calls made once the archive is open, by how they end: the members
    are written, the client is constructed, the scan is started, polled,
    and its SARIF report fetched.  The value is the results of the
    polling. *)
Definition scan_steps (template_files : list FileUtils.path) : result value :=
  match snd (FileUtils.create_zip_archive read_bytes not_in_subpath zip
                                          template_files (iac_template_dir config)) with
  | Raise e => Raise e
  | Return _ =>
      match QualysApiClient (qualys_base_url config) (qualys_username config)
                            (qualys_password config) (qualys_custom_ca_bundle config) with
      | Raise e => Raise e
      | Return client =>
          match initiate_scan client zip ("iac-scan-" ++ timestamp) with
          | Raise e => Raise e
          | Return scan_uuid =>
              match poll_scan_results client scan_uuid (poll_interval config)
                                      (poll_timeout config) with
              | Raise e => Raise e
              | Return results =>
                  match get_sarif_results client scan_uuid with
                  | Raise e => Raise e
                  | Return _ => Return results
                  end
              end
          end
      end
  end.

(** The state and the outcome of the [try] block, stage by stage. *)
Lemma try_body_stages :
  body start
  = match FileUtils.find_iac_templates (iac_template_dir config) at_root with
    | Raise e => (start, Raise e)
    | Return [] =>
        ({| files := disk; zip_file_path := None; log := [NoTemplates] |}, Return tt)
    | Return template_files =>
        match zip_opens with
        | Raise e => ({| files := disk; zip_file_path := Some zip; log := [] |}, Raise e)
        | Return _ =>
            match scan_steps template_files with
            | Raise e =>
                ({| files := zip :: disk; zip_file_path := Some zip; log := [] |},
                 Raise e)
            | Return results =>
                match results_opens with
                | Raise e =>
                    ({| files := sarif_file :: zip :: disk;
                        zip_file_path := Some zip; log := [] |}, Raise e)
                | Return _ =>
                    ({| files := results_file :: sarif_file :: zip :: disk;
                        zip_file_path := Some zip; log := [] |},
                     json_dump results)
                end
            end
        end
    end.
Proof.
  unfold body, try_body, scan_steps, seq, call.
  destruct (FileUtils.find_iac_templates _ _) as [[|file template_files]|e];
    try reflexivity.
  cbn [assign_zip_file_path create_zip_archive seq call start files zip_file_path log].
  unfold create_zip_archive, seq, call.
  destruct zip_opens as [[]|e]; [|reflexivity].
  cbn [create_file files zip_file_path log].
  fold zip.
  destruct (snd (FileUtils.create_zip_archive _ _ _ _ _)) as [[]|e]; [|reflexivity].
  destruct (QualysApiClient _ _ _ _) as [client|e]; [|reflexivity].
  destruct (initiate_scan client _ _) as [scan_uuid|e]; [|reflexivity].
  destruct (poll_scan_results client _ _ _) as [results|e]; [|reflexivity].
  unfold save_sarif_results, save_results, seq, call.
  destruct (get_sarif_results client _) as [[]|e]; [|reflexivity].
  cbn [create_file files zip_file_path log].
  destruct results_opens as [[]|e]; reflexivity.
Qed.

(** ** The archive is none of the result files *)

Lemma path_eqb_refl (p : FileUtils.path) : path_eqb p p = true.
Proof. unfold path_eqb. destruct (list_eq_dec string_dec p p); congruence. Qed.

Lemma path_eqb_eq (p q : FileUtils.path) : path_eqb p q = true <-> p = q.
Proof.
  unfold path_eqb. destruct (list_eq_dec string_dec p q); split; congruence.
Qed.

Lemma zip_not_results : zip <> results_file /\ zip <> sarif_file.
Proof. split; intros H; discriminate H. Qed.

Lemma filter_absent (p : FileUtils.path) (l : list FileUtils.path) :
  existsb (path_eqb p) l = false -> filter (fun q => negb (path_eqb p q)) l = l.
Proof.
  induction l as [|q l IH]; cbn [existsb filter]; [reflexivity|].
  intros H. apply orb_false_iff in H as (Hq & Hl). rewrite Hq. cbn [negb].
  now rewrite IH.
Qed.

(** ** From the [try] block to the end of the run *)

(** The outcome: the handlers turn every [Exception] into [sys.exit(1)]. *)
Lemma run_outcome :
  snd run = match snd (body start) with
            | Return _ => Return tt
            | Raise e =>
                if is_critical e || is_Exception e then Raise (SystemExit 1)
                else Raise e
            end.
Proof.
  unfold run, run_scan_workflow. rewrite try_finally_cleanup_outcome.
  unfold try_except. fold body start.
  destruct (body start) as [s1 [[]|e]]; [reflexivity|].
  unfold handlers. cbn [snd].
  destruct (is_critical e); [reflexivity|].
  destruct (is_Exception e); reflexivity.
Qed.

(** The files: those the [try] block left, less the archive once it was
    named. *)
Lemma run_files :
  files (fst run)
  = match zip_file_path (fst (body start)) with
    | Some p => filter (fun q => negb (path_eqb p q)) (files (fst (body start)))
    | None => files (fst (body start))
    end.
Proof.
  unfold run, run_scan_workflow, try_finally, try_except. fold body start.
  destruct (body start) as [s1 r]. cbn [fst].
  assert (forall s2 : state,
             files s2 = files s1 -> zip_file_path s2 = zip_file_path s1 ->
             files (fst (cleanup s2))
             = match zip_file_path s1 with
               | Some p => filter (fun q => negb (path_eqb p q)) (files s1)
               | None => files s1
               end) as Hcleanup.
  { intros s2 Hfiles Hzip. unfold cleanup. rewrite Hzip.
    destruct (zip_file_path s1) as [p|]; [|exact Hfiles].
    destruct (path_exists p s2) eqn:Hexists; cbn; rewrite Hfiles; [reflexivity|].
    unfold path_exists in Hexists. rewrite Hfiles in Hexists.
    symmetry. now apply filter_absent. }
  assert (forall (s2 : state) (r2 : result unit),
             files s2 = files s1 -> zip_file_path s2 = zip_file_path s1 ->
             files (fst (let '(s3, r3) := (s2, r2) in
                         match cleanup s3 with
                         | (s4, Return _) => (s4, r3)
                         | (s4, Raise e) => (s4, Raise e)
                         end))
             = match zip_file_path s1 with
               | Some p => filter (fun q => negb (path_eqb p q)) (files s1)
               | None => files s1
               end) as Hfinal.
  { intros s2 r2 Hfiles Hzip. rewrite <- (Hcleanup s2 Hfiles Hzip).
    destruct (cleanup s2) as [s4 [[]|e]]; reflexivity. }
  destruct r as [[]|e]; [now apply Hfinal|].
  unfold handlers.
  destruct (is_critical e); [now apply Hfinal|].
  destruct (is_Exception e); now apply Hfinal.
Qed.

(** X15.  A run with nothing to scan creates nothing.  When no template is
    found the run logs that and returns, which is no error; when the
    template directory is no directory the first [except] clause logs the
    [FileNotFoundError] and the run exits with 1.  Either way the disk is
    as it was, no archive was named and the client was never made. *)
Theorem run_scan_workflow_nothing_to_scan :
  (FileUtils.find_iac_templates (iac_template_dir config) at_root = Return [] ->
   run = ({| files := disk; zip_file_path := None; log := [NoTemplates] |}, Return tt))
  /\ (FileUtils.is_dir at_root = false ->
      run = ({| files := disk; zip_file_path := None;
                log := [CriticalError
                          (FileNotFoundError
                             ("The specified directory does not exist: "
                                ++ FileUtils.path_str (iac_template_dir config)))] |},
             Raise (SystemExit 1))).
Proof.
  pose proof try_body_stages as Hbody. unfold body, start in Hbody.
  split; intros H; unfold run, run_scan_workflow, try_finally, try_except;
    rewrite Hbody.
  - rewrite H. reflexivity.
  - unfold FileUtils.find_iac_templates. rewrite H. reflexivity.
Qed.

(** X16.  The run returns in two cases only: no template was found, or
    every step went through: templates were found, the archive was opened
    and written, the client was constructed, the scan was started and
    polled to its results, the SARIF report was fetched, and the results
    were dumped into [results.json].  In the second case the run leaves
    [results.json] and [results.sarif] on the disk it started with, less
    the archive. *)
Theorem run_scan_workflow_returns :
  (snd run = Return tt <->
   FileUtils.find_iac_templates (iac_template_dir config) at_root = Return []
   \/ exists template_files client scan_uuid results,
       FileUtils.find_iac_templates (iac_template_dir config) at_root
       = Return template_files
       /\ template_files <> []
       /\ zip_opens = Return tt
       /\ snd (FileUtils.create_zip_archive read_bytes not_in_subpath zip template_files
                                            (iac_template_dir config)) = Return tt
       /\ QualysApiClient (qualys_base_url config) (qualys_username config)
                          (qualys_password config) (qualys_custom_ca_bundle config)
          = Return client
       /\ initiate_scan client zip ("iac-scan-" ++ timestamp) = Return scan_uuid
       /\ poll_scan_results client scan_uuid (poll_interval config) (poll_timeout config)
          = Return results
       /\ get_sarif_results client scan_uuid = Return tt
       /\ results_opens = Return tt
       /\ json_dump results = Return tt)
  /\ (snd run = Return tt ->
      FileUtils.find_iac_templates (iac_template_dir config) at_root <> Return [] ->
      files (fst run)
      = results_file :: sarif_file :: filter (fun q => negb (path_eqb zip q)) disk).
Proof.
  assert (forall e, (if is_critical e || is_Exception e
                     then Raise (SystemExit 1) else Raise e) <> @Return unit tt)
    as Hraise by (intros e; destruct (is_critical e || is_Exception e); discriminate).
  split; [split|].
  - rewrite run_outcome, try_body_stages.
    destruct (FileUtils.find_iac_templates _ _) as [[|file template_files]|e];
      cbn [snd]; intros Hrun; [now left| |now apply Hraise in Hrun].
    right. destruct zip_opens as [[]|e]; [|now apply Hraise in Hrun].
    destruct (scan_steps (file :: template_files)) as [results|e] eqn:Hsteps;
      [|now apply Hraise in Hrun].
    destruct results_opens as [[]|e]; [|now apply Hraise in Hrun].
    cbn [snd] in Hrun.
    destruct (json_dump results) as [[]|e] eqn:Hdump; [|now apply Hraise in Hrun].
    unfold scan_steps in Hsteps.
    destruct (snd (FileUtils.create_zip_archive _ _ _ _ _)) as [[]|e] eqn:Hzip;
      [|discriminate Hsteps].
    destruct (QualysApiClient _ _ _ _) as [client|e] eqn:Hclient; [|discriminate Hsteps].
    destruct (initiate_scan client _ _) as [scan_uuid|e] eqn:Hscan;
      [|discriminate Hsteps].
    destruct (poll_scan_results client _ _ _) as [results'|e] eqn:Hpoll;
      [|discriminate Hsteps].
    destruct (get_sarif_results client _) as [[]|e] eqn:Hsarif; [|discriminate Hsteps].
    injection Hsteps as ->.
    exists (file :: template_files), client, scan_uuid, results.
    repeat split; try assumption; try reflexivity. discriminate.
  - rewrite run_outcome, try_body_stages.
    intros [Hnone|(template_files & client & scan_uuid & results & Hfound & Hne
                   & Hopen & Hzip & Hclient & Hscan & Hpoll & Hsarif & Hres & Hdump)].
    + now rewrite Hnone.
    + rewrite Hfound. destruct template_files as [|file template_files];
        [congruence|].
      rewrite Hopen. unfold scan_steps.
      rewrite Hzip, Hclient, Hscan, Hpoll, Hsarif, Hres. cbn [snd].
      now rewrite Hdump.
  - rewrite run_outcome, run_files, try_body_stages.
    destruct (FileUtils.find_iac_templates _ _) as [[|file template_files]|e];
      cbn [snd]; intros Hrun Hsome; [congruence| |now apply Hraise in Hrun].
    destruct zip_opens as [[]|e]; [|now apply Hraise in Hrun].
    destruct (scan_steps (file :: template_files)) as [results|e];
      [|now apply Hraise in Hrun].
    destruct results_opens as [[]|e]; [|now apply Hraise in Hrun].
    cbn [fst files zip_file_path filter].
    destruct zip_not_results as (Hres & Hsarif).
    assert (path_eqb zip results_file = false) as ->
        by (destruct (path_eqb zip results_file) eqn:H;
            [apply path_eqb_eq in H; contradiction|reflexivity]).
    assert (path_eqb zip sarif_file = false) as ->
        by (destruct (path_eqb zip sarif_file) eqn:H;
            [apply path_eqb_eq in H; contradiction|reflexivity]).
    now rewrite path_eqb_refl.
Qed.

(** X17.  [results.json] is written only after [results.sarif]: a run that
    starts without [results.json] on disk and ends with it ends with
    [results.sarif] too.  So when the SARIF report cannot be fetched the
    results of the polling are not saved. *)
Theorem results_saved_after_sarif :
  ~ In results_file disk ->
  In results_file (files (fst run)) ->
  In sarif_file (files (fst run)).
Proof.
  intros Hfresh. rewrite run_files, try_body_stages.
  destruct zip_not_results as (Hres & Hsarif).
  assert (forall l, In results_file (filter (fun q => negb (path_eqb zip q)) l) ->
                    In results_file l) as Hfilter
      by (intros l H; now apply filter_In in H).
  assert (~ In results_file (zip :: disk)) as Hfresh'
      by (intros [H|H]; [contradiction|contradiction]).
  assert (forall l, In sarif_file
                       (filter (fun q => negb (path_eqb zip q)) (sarif_file :: l)))
    as Hkept.
  { intros l. apply filter_In. split; [now left|].
    destruct (path_eqb zip sarif_file) eqn:H; [|reflexivity].
    apply path_eqb_eq in H. contradiction. }
  destruct (FileUtils.find_iac_templates _ _) as [[|file template_files]|e];
    cbn [fst files zip_file_path]; try contradiction.
  destruct zip_opens as [[]|e]; cbn [fst files zip_file_path].
  2:{ intros H. apply Hfilter in H. contradiction. }
  destruct (scan_steps (file :: template_files)) as [results|e];
    cbn [fst files zip_file_path].
  2:{ intros H. apply Hfilter in H. contradiction. }
  destruct results_opens as [[]|e]; cbn [fst files zip_file_path]; intros _.
  - pose proof (Hkept (zip :: disk)) as H.
    cbn [filter] in *.
    destruct (negb (path_eqb zip results_file)); [now right|exact H].
  - apply Hkept.
Qed.

(** A step between the archive and the results that raises an
    [Exception]: the clause that catches it logs it, the archive is
    removed, the run exits with 1. *)
Lemma run_failed_step (template_files : list FileUtils.path) (e : exception) :
  FileUtils.find_iac_templates (iac_template_dir config) at_root = Return template_files ->
  template_files <> [] ->
  zip_opens = Return tt ->
  scan_steps template_files = Raise e ->
  is_Exception e = true ->
  run = ({| files := filter (fun q => negb (path_eqb zip q)) disk;
            zip_file_path := Some zip;
            log := [ if is_critical e then CriticalError e else UnexpectedError e;
                     CleaningUp zip ] |},
         Raise (SystemExit 1)).
Proof.
  intros Hfound Hne Hopen Hsteps He.
  pose proof try_body_stages as Hbody. unfold body, start in Hbody.
  unfold run, run_scan_workflow, try_finally, try_except. rewrite Hbody, Hfound.
  destruct template_files as [|file template_files]; [congruence|].
  rewrite Hopen, Hsteps. unfold handlers. rewrite He.
  destruct (is_critical e);
    cbn [seq logging sys_exit throw files zip_file_path log app];
    unfold cleanup; cbn [zip_file_path];
    unfold path_exists; cbn [files existsb]; rewrite path_eqb_refl; cbn [orb];
    cbn [seq logging os_remove files zip_file_path log app filter];
    rewrite path_eqb_refl; reflexivity.
Qed.

End Runs.

Section Script.
Import Py Main.

Variable at_root : option FileUtils.node.
Variable read_bytes : FileUtils.path -> option string.
Variable not_in_subpath : FileUtils.path -> FileUtils.path -> string.
Variable timestamp : string.
Variable zip_opens : result unit.
Variable QualysApiClient : string -> string -> string -> option string -> result client.
Variable results_opens : result unit.
Variable json_dump : value -> result unit.
Variable load_config : result AppConfig.
Variable disk : list FileUtils.path.

Let script : state * result unit :=
  script at_root read_bytes not_in_subpath timestamp zip_opens QualysApiClient
         results_opens json_dump load_config disk.

(** No way the workflow ends is a [ValueError]. *)
Lemma exit_path_not_ValueError (e : exception) :
  exit_path (Raise e) -> is_ValueError e = false.
Proof.
  intros [H|[H|(e' & H & He)]]; [discriminate H| |].
  - now injection H as ->.
  - injection H as ->. destruct e'; try discriminate He; reflexivity.
Qed.

(** X18.  The [except ValueError] clause of the script is for the
    configuration alone.  Once [load_config] has returned, the script ends
    as the workflow does, in the same state: what the workflow raises is
    [SystemExit] or no [Exception] at all, never a [ValueError].  A
    [ValueError] of [load_config] ends in [sys.exit(1)] with the disk as it
    was, and any other exception of [load_config] leaves the script as it
    is. *)
Theorem script_outcome :
  (forall app_config,
      load_config = Return app_config ->
      script = run_scan_workflow at_root read_bytes not_in_subpath timestamp zip_opens
                                 QualysApiClient results_opens json_dump
                                 app_config disk)
  /\ (forall e,
         load_config = Raise e ->
         files (fst script) = disk
         /\ snd script = if is_ValueError e then Raise (SystemExit 1) else Raise e).
Proof.
  unfold script, Main.script, try_except, seq, call. split.
  - intros app_config ->. cbn [files].
    pose proof (try_except_exit_path
                  (try_body at_root read_bytes not_in_subpath timestamp zip_opens
                            QualysApiClient results_opens json_dump app_config)
                  {| files := disk; zip_file_path := None; log := [] |}) as Hpath.
    rewrite <- (try_finally_cleanup_outcome _ _) in Hpath.
    fold (run_scan_workflow at_root read_bytes not_in_subpath timestamp zip_opens
                            QualysApiClient results_opens json_dump app_config disk)
      in Hpath.
    destruct (run_scan_workflow _ _ _ _ _ _ _ _ _ _) as [s1 [[]|e]]; [reflexivity|].
    cbn [snd] in Hpath. now rewrite (exit_path_not_ValueError e Hpath).
  - intros e ->. destruct (is_ValueError e); split; reflexivity.
Qed.

End Script.

(** ** Runs to try the statements on *)

(** A directory without a template. *)
Definition docs_tree : list (string * FileUtils.node) :=
  [ ("readme.md", FileUtils.File "docs"); ("output.json", FileUtils.File "{}") ].

Lemma run_scan_workflow_nothing_to_scan_example :
  Main.run_scan_workflow
    (Some (FileUtils.Dir docs_tree)) (fun _ => Some "bytes")
    (fun _ _ => "not in the subpath") "20260101120000" (Py.Return tt)
    (fun _ _ _ _ => Py.Return (client_of finished_service))
    (Py.Return tt) (fun _ => Py.Return tt)
    (sample_config 20) [["README.md"]]
  = ({| Main.files := [["README.md"]]; Main.zip_file_path := None;
        Main.log := [Main.NoTemplates] |}, Py.Return tt).
Proof.
  exact (proj1 (run_scan_workflow_nothing_to_scan
                  (Some (FileUtils.Dir docs_tree)) (fun _ => Some "bytes")
                  (fun _ _ => "not in the subpath") "20260101120000" (Py.Return tt)
                  (fun _ _ _ _ => Py.Return (client_of finished_service))
                  (Py.Return tt) (fun _ => Py.Return tt)
                  [["README.md"]] (sample_config 20))
               eq_refl).
Defined.

Lemma run_scan_workflow_returns_example :
  Main.files (fst (sample_run finished_service 20))
  = Main.results_file :: Main.sarif_file
      :: filter (fun q => negb (Main.path_eqb [Main.zip_file_name "20260101120000"] q))
                [["README.md"]].
Proof.
  apply (proj2 (run_scan_workflow_returns
                  (Some (FileUtils.Dir sample_tree)) (fun _ => Some "bytes")
                  (fun _ _ => "not in the subpath") "20260101120000" (Py.Return tt)
                  (fun _ _ _ _ => Py.Return (client_of finished_service))
                  (Py.Return tt) (fun _ => Py.Return tt)
                  [["README.md"]] (sample_config 20))).
  - reflexivity.
  - discriminate.
Defined.

Lemma results_saved_after_sarif_example :
  ~ In Main.results_file [["README.md"]]
  /\ In Main.results_file (Main.files (fst (sample_run finished_service 20)))
  /\ In Main.sarif_file (Main.files (fst (sample_run finished_service 20))).
Proof.
  assert (~ In Main.results_file [["README.md"]]) as Hfresh
      by (intros [H|[]]; discriminate H).
  assert (In Main.results_file (Main.files (fst (sample_run finished_service 20))))
    as Hsaved by (left; reflexivity).
  repeat split; [exact Hfresh|exact Hsaved|].
  exact (results_saved_after_sarif
           (Some (FileUtils.Dir sample_tree)) (fun _ => Some "bytes")
           (fun _ _ => "not in the subpath") "20260101120000" (Py.Return tt)
           (fun _ _ _ _ => Py.Return (client_of finished_service))
           (Py.Return tt) (fun _ => Py.Return tt)
           [["README.md"]] (sample_config 20) Hfresh Hsaved).
Defined.

Lemma script_outcome_example :
  Main.script (Some (FileUtils.Dir sample_tree)) (fun _ => Some "bytes")
              (fun _ _ => "not in the subpath") "20260101120000" (Py.Return tt)
              (fun _ _ _ _ => Py.Return (client_of running_service))
              (Py.Return tt) (fun _ => Py.Return tt)
              (Py.Return (sample_config 20)) [["README.md"]]
  = sample_run running_service 20.
Proof.
  exact (proj1 (script_outcome
                  (Some (FileUtils.Dir sample_tree)) (fun _ => Some "bytes")
                  (fun _ _ => "not in the subpath") "20260101120000" (Py.Return tt)
                  (fun _ _ _ _ => Py.Return (client_of running_service))
                  (Py.Return tt) (fun _ => Py.Return tt)
                  (Py.Return (sample_config 20)) [["README.md"]])
               (sample_config 20) eq_refl).
Defined.

(* ===================================================================== *)
(** * From the polling to the parser                                      *)
(* ===================================================================== *)

Section PolledPayload.
Import Py ResultParser.

Variable read_file : string -> read_outcome.
Variable json_loads : string -> option value.
Variable float_repr : spec_float -> string.
Variable str_repr : string -> string.

(** X19.  The parser takes what the polling returned.  When the file given
    to [main] holds, as JSON, a payload that [poll_scan_results] returned,
    [main] does not stop at the status: its result is that of the
    reporter over the failures of the payload, and the exit status is 0
    exactly when the payload yields no failure record. *)
Theorem polled_payload_is_reported
        (srv : QualysClient.service) (scan_uuid : string) (interval timeout t0 : Z)
        (fuel : nat) (w' : QualysClient.world) (data : value)
        (file_path content : string) :
  QualysClient.poll_scan_results fuel srv scan_uuid interval timeout
                                 (QualysClient.fresh t0)
  = Some (w', Return data) ->
  read_file file_path = Content content ->
  json_loads (json_text content) = Some data ->
  let run := main read_file json_loads float_repr str_repr file_path in
  snd run = match snd (report_failures float_repr str_repr (extract_failures data)) with
            | Raise e => Raise e
            | Return any => Return (if any then 1%Z else 0%Z)
            end
  /\ (exit_status run = 0%Z <-> extract_failures data = ([], Return tt)).
Proof.
  intros Hpoll Hfile Hjson. cbv zeta. unfold QualysClient.poll_scan_results in Hpoll.
  apply poll_loop_returned in Hpoll as (m & _ & _ & Hterm & _); [|cbn; lia].
  destruct Hterm as (payload & -> & _ & Hstatus).
  assert (snd (load_scan_data read_file json_loads file_path) = Return (PDict payload))
    as Hload.
  { unfold load_scan_data. rewrite Hfile. fold (json_text content).
    now rewrite Hjson. }
  split.
  - now apply main_verdict.
  - rewrite exit_status_0_iff. split.
    + intros (payload' & Hload' & _ & Hnone). rewrite Hload in Hload'.
      now injection Hload' as <-.
    + intros Hnone. now exists payload.
Qed.

End PolledPayload.

Lemma polled_payload_is_reported_example :
  ResultParser.exit_status
    (ResultParser.main (fun _ => ResultParser.Content "{...}")
                       (fun _ => Some finished_payload_sample)
                       (fun _ => "") (fun s => s) "results.json") = 0%Z.
Proof.
  apply (proj2 (polled_payload_is_reported
                  (fun _ => ResultParser.Content "{...}")
                  (fun _ => Some finished_payload_sample)
                  (fun _ => "") (fun s => s)
                  slow_service "scan-1" 5 60 0 10
                  {| QualysClient.now := 19; QualysClient.requests := [18; 12; 6; 0]%Z |}
                  finished_payload_sample "results.json" "{...}"
                  eq_refl eq_refl eq_refl)).
  reflexivity.
Defined.

(* ===================================================================== *)
(** * main.py with the client of qualys_client.py                         *)
(* ===================================================================== *)

Section WithTheClient.
Import Py Main.
Local Open Scope Z_scope.

Variable at_root : option FileUtils.node.
Variable read_bytes : FileUtils.path -> option string.
Variable not_in_subpath : FileUtils.path -> FileUtils.path -> string.
Variable timestamp : string.
Variable zip_opens : result unit.
Variable results_opens : result unit.
Variable json_dump : value -> result unit.
Variable disk : list FileUtils.path.
Variable config : AppConfig.

Let zip : FileUtils.path := [zip_file_name timestamp].

(** ** The constructor *)

Variable is_file : string -> bool.
Variable create_default_context : string -> result QualysClient.ssl_context.
Variable flag_bits : Z.
Variable default_headers : list (string * string).

(** The calls the workflow makes on an object of the class. *)
Variable methods : QualysClient.QualysApiClient -> client.

Definition constructed (url username password : string) (ca : option string)
  : result client :=
  match QualysClient.__init__ is_file create_default_context flag_bits default_headers
                              url username password ca with
  | Return self => Return (methods self)
  | Raise e => Raise e
  end.

(** X20.  A CA bundle that is configured and is no file stops the run
    after the archive was written and before anything is uploaded: the
    constructor raises [FileNotFoundError], the first [except] clause logs
    it, the archive is removed and the run exits with 1. *)
Theorem missing_ca_bundle_stops_run
        (template_files : list FileUtils.path) (bundle : string) :
  FileUtils.find_iac_templates (iac_template_dir config) at_root = Return template_files ->
  template_files <> [] ->
  zip_opens = Return tt ->
  snd (FileUtils.create_zip_archive read_bytes not_in_subpath zip template_files
                                    (iac_template_dir config)) = Return tt ->
  qualys_custom_ca_bundle config = Some bundle ->
  bundle <> "" ->
  is_file bundle = false ->
  run_scan_workflow at_root read_bytes not_in_subpath timestamp zip_opens
                    constructed results_opens json_dump config disk
  = ({| files := filter (fun q => negb (path_eqb zip q)) disk;
        zip_file_path := Some zip;
        log := [ CriticalError
                   (FileNotFoundError ("Custom CA bundle not found at: " ++ bundle));
                 CleaningUp zip ] |},
     Raise (SystemExit 1)).
Proof.
  intros Hfound Hne Hopen Hzip Hbundle Hnonempty Hfile.
  apply (run_failed_step at_root read_bytes not_in_subpath timestamp zip_opens
                         constructed results_opens json_dump disk config
                         template_files
                         (FileNotFoundError ("Custom CA bundle not found at: " ++ bundle)));
    auto.
  unfold scan_steps. fold zip. rewrite Hzip.
  unfold constructed, QualysClient.__init__, QualysClient._configure_ssl.
  rewrite Hbundle. apply String.eqb_neq in Hnonempty. now rewrite Hnonempty, Hfile.
Qed.

(** ** The polling *)

Variable srv : QualysClient.service.
Variable fuel : nat.
Variable t0 : Z.
Variable uuid_text : value -> string.
Variable initiate : FileUtils.path -> string -> result value.
Variable sarif : value -> result unit.



End WithTheClient.

(** A configuration that names a CA bundle. *)
Definition bundle_config : Main.AppConfig :=
  {| Main.iac_template_dir := ["repo"];
     Main.qualys_base_url := "https://qualys.example/";
     Main.qualys_username := "user";
     Main.qualys_password := "secret";
     Main.qualys_custom_ca_bundle := Some "missing.pem";
     Main.poll_interval := 20;
     Main.poll_timeout := 60 |}.

Lemma missing_ca_bundle_stops_run_example :
  Main.run_scan_workflow
    (Some (FileUtils.Dir sample_tree)) (fun _ => Some "bytes")
    (fun _ _ => "not in the subpath") "20260101120000" (Py.Return tt)
    (constructed (fun _ => false) default_context 1048575 session_headers
                 (fun _ => client_of finished_service))
    (Py.Return tt) (fun _ => Py.Return tt) bundle_config [["README.md"]]
  = ({| Main.files :=
          filter (fun q => negb (Main.path_eqb [Main.zip_file_name "20260101120000"] q))
                 [["README.md"]];
        Main.zip_file_path := Some [Main.zip_file_name "20260101120000"];
        Main.log :=
          [ Main.CriticalError
              (Py.FileNotFoundError ("Custom CA bundle not found at: " ++ "missing.pem"));
            Main.CleaningUp [Main.zip_file_name "20260101120000"] ] |},
     Py.Raise (Py.SystemExit 1)).
Proof.
  apply (missing_ca_bundle_stops_run
           (Some (FileUtils.Dir sample_tree)) (fun _ => Some "bytes")
           (fun _ _ => "not in the subpath") "20260101120000" (Py.Return tt)
           (Py.Return tt) (fun _ => Py.Return tt) [["README.md"]] bundle_config
           (fun _ => false) default_context 1048575 session_headers
           (fun _ => client_of finished_service)
           [ ["repo"; "main.tf"]; ["repo"; "nested"; "Notes.TEMPLATE"] ] "missing.pem");
    try reflexivity; discriminate.
Defined.

